(** * TorchPhysics tutorials and packaging workflow: a shallow embedding

    The development follows the three artefacts of the repository:
    - [examples/tutorial/Introduction_Tutorial_PINNs.ipynb]: the heater
      temperature [h], the residual functions and the training set-up;
    - [examples/tutorial/solve_pde_drm.ipynb]: the Deep Ritz conditions;
    - the GitHub Actions workflow "Build and upload to PyPI".

    Floating point numbers are idealised as exact rationals ([Q]).  A tensor
    of shape (n, 1) is represented by its single column, a list of n numbers;
    a tensor of shape (n, d) by the list of its n rows. *)

From stdpp Require Import base option list strings.
From Stdlib Require Import Ascii QArith Qminmax Qabs Lqa Lia.

Local Open Scope Q_scope.

(** ** Arrays: the numpy / torch operations used by the notebooks *)

Module Array.

(** [c * a] and [c + a] with a Python scalar [c] (broadcast over [a]). *)
Definition scalar_mul (c : Q) (a : list Q) : list Q := map (Qmult c) a.
Definition scalar_add (c : Q) (a : list Q) : list Q := map (Qplus c) a.

(** Comparisons with a scalar give a boolean array of the same shape. *)
Definition gtb (x c : Q) : bool := negb (Qle_bool x c).
Definition gt_scalar (a : list Q) (c : Q) : list bool := map (fun x => gtb x c) a.
Definition ge_scalar (a : list Q) (c : Q) : list bool := map (fun x => Qle_bool c x) a.
Definition le_scalar (a : list Q) (c : Q) : list bool := map (fun x => Qle_bool x c) a.

(** [m1 & m2] on boolean tensors; the shapes must agree, unless one of
    them has a single entry, which is then broadcast. *)
Definition mask_and (m1 m2 : list bool) : option (list bool) :=
  if Nat.eqb (length m1) (length m2) then Some (zip_with andb m1 m2)
  else match m1, m2 with
       | [b], _ => Some (map (andb b) m2)
       | _, [b] => Some (map (fun a => andb a b) m1)
       | _, _ => None
       end.

(** [a - b] on tensors, with the same broadcasting rule. *)
Definition sub (a b : list Q) : option (list Q) :=
  if Nat.eqb (length a) (length b) then Some (zip_with Qminus a b)
  else match a, b with
       | [x], _ => Some (map (fun y => x - y) b)
       | _, [y] => Some (map (fun x => x - y) a)
       | _, _ => None
       end.

(** [x[:, k]]: column [k] of a two-dimensional tensor; an IndexError when a
    row has no entry [k]. *)
Definition column (k : nat) (x : list (list Q)) : option (list Q) :=
  mapM (fun row : list Q => row !! k) x.

(** [a[m] = v] with a boolean mask [m] and a scalar [v]: every selected
    entry becomes [v]; an IndexError when the mask has another shape. *)
Fixpoint setitem_mask (a : list Q) (m : list bool) (v : Q) : option (list Q) :=
  match a, m with
  | [], [] => Some []
  | x :: a', b :: m' =>
      r ← setitem_mask a' m' v; Some ((if b then v else x) :: r)
  | _, _ => None
  end.

(** [a[m]]: the selected entries, in order. *)
Fixpoint getitem_mask (a : list Q) (m : list bool) : option (list Q) :=
  match a, m with
  | [], [] => Some []
  | x :: a', b :: m' =>
      r ← getitem_mask a' m'; Some (if b then x :: r else r)
  | _, _ => None
  end.

(** [a[m] = vs] with a tensor [vs] holding exactly one value per selected
    entry: the values are consumed in order. *)
Fixpoint setitem_mask_seq (a : list Q) (m : list bool) (vs : list Q)
  : option (list Q) :=
  match a, m with
  | [], [] => match vs with [] => Some [] | _ => None end
  | x :: a', true :: m' =>
      match vs with
      | v :: vs' => r ← setitem_mask_seq a' m' vs'; Some (v :: r)
      | [] => None
      end
  | x :: a', false :: m' =>
      r ← setitem_mask_seq a' m' vs; Some (x :: r)
  | _, _ => None
  end.

(** [a[m] = vs] in general: a one-entry [vs] is broadcast to the selected
    entries, any other [vs] must match their number. *)
Definition setitem_mask_values (a : list Q) (m : list bool) (vs : list Q)
  : option (list Q) :=
  match vs with
  | [v] => setitem_mask a m v
  | _ => setitem_mask_seq a m vs
  end.

End Array.

(** ** The heater temperature (PINN tutorial, first code cell) *)

Definition u_0 : Q := 16.
Definition u_heater_max : Q := 40.
Definition t_heater_max : Q := 5.

(** [h(t)]: the value computed, as a function of the value of the argument. *)
Definition h (t : list Q) : option (list Q) :=
  let ht := Array.scalar_add u_0
              (Array.scalar_mul ((u_heater_max - u_0) / t_heater_max) t) in
  Array.setitem_mask ht (Array.gt_scalar t t_heater_max) u_heater_max.

(** The temperature at one time, as the problem statement writes it. *)
Definition heater_temperature (t : Q) : Q :=
  Qmin (u_0 + (u_heater_max - u_0) / t_heater_max * t) u_heater_max.

(** ** The same function on a store of array objects

    Python passes arrays by reference.  The store is the list of the array
    objects allocated so far; a reference is an index into it. *)

Module Store.

Inductive ndarray :=
| FloatArray (data : list Q)
| BoolArray (data : list bool).

Definition heap := list ndarray.
Definition ref := nat.

(** Computations that read and write the store and may raise. *)
Definition M (A : Type) : Type := heap -> option (A * heap).

Definition ret {A} (x : A) : M A := fun σ => Some (x, σ).
Definition bind {A B} (c : M A) (k : A -> M B) : M B :=
  fun σ => match c σ with
           | Some (x, σ') => k x σ'
           | None => None
           end.
Definition raise {A} : M A := fun _ => None.

Definition alloc (a : ndarray) : M ref :=
  fun σ => Some (length σ, σ ++ [a]).
Definition read_float (l : ref) : M (list Q) :=
  fun σ => match σ !! l with
           | Some (FloatArray d) => Some (d, σ)
           | _ => None
           end.
Definition read_bool (l : ref) : M (list bool) :=
  fun σ => match σ !! l with
           | Some (BoolArray d) => Some (d, σ)
           | _ => None
           end.
Definition write (l : ref) (a : ndarray) : M unit :=
  fun σ => if decide (l < length σ)%nat then Some (tt, <[l := a]> σ) else None.

#[export] Instance M_ret : MRet M := @ret.
#[export] Instance M_bind : MBind M := fun A B k c => bind c k.

(** [c * a], [c + a] and [a > c] each allocate their result. *)
Definition np_scalar_mul (c : Q) (a : ref) : M ref :=
  d ← read_float a; alloc (FloatArray (Array.scalar_mul c d)).
Definition np_scalar_add (c : Q) (a : ref) : M ref :=
  d ← read_float a; alloc (FloatArray (Array.scalar_add c d)).
Definition np_gt_scalar (a : ref) (c : Q) : M ref :=
  d ← read_float a; alloc (BoolArray (Array.gt_scalar d c)).

(** [a[m] = v] writes into the object [a] itself. *)
Definition np_setitem_mask (a m : ref) (v : Q) : M unit :=
  d ← read_float a;
  b ← read_bool m;
  match Array.setitem_mask d b v with
  | Some d' => write a (FloatArray d')
  | None => raise
  end.

(** The body of [h], statement by statement. *)
Definition h (t : ref) : M ref :=
  slope_t ← np_scalar_mul ((u_heater_max - u_0) / t_heater_max) t;
  ht ← np_scalar_add u_0 slope_t;
  mask ← np_gt_scalar t t_heater_max;
  _ ← np_setitem_mask ht mask u_heater_max;
  mret ht.

End Store.

(** ** The residual functions of the PINN tutorial *)

Section Residuals.

(** The differential operators of [tp.utils] and the outward normal of the
    room's boundary belong to the library; the residuals only call them. *)
Variable laplacian : list Q -> list (list Q) -> list Q.
Variable grad : list Q -> list Q -> list Q.
Variable normal : list (list Q) -> list (list Q).
Variable normal_derivative :
  list Q -> list (list Q) -> list (list Q) -> list Q.

Definition residual_pde_condition (u : list Q) (x : list (list Q)) (t : list Q)
  : option (list Q) :=
  Array.sub (laplacian u x) (grad u t).

Definition residual_initial_condition (u : list Q) : option (list Q) :=
  Some (map (fun v => v - u_0) u).

Definition residual_dirichlet_condition (u t : list Q) : option (list Q) :=
  ht ← h t; Array.sub u ht.

Definition residual_neumann_condition (u : list Q) (x : list (list Q))
  : list Q :=
  let normal_vectors := normal x in
  let normal_derivative := normal_derivative u normal_vectors x in
  normal_derivative.

(** The boolean tensor telling which points belong to the heater. *)
Definition heater_location (x : list (list Q)) : option (list bool) :=
  x0 ← Array.column 0 x;
  x1 ← Array.column 1 x;
  m ← Array.mask_and (Array.ge_scalar x0 1) (Array.le_scalar x0 3);
  Array.mask_and m (Array.ge_scalar x1 3.99).

Definition residual_boundary_condition
  (u : list Q) (x : list (list Q)) (t : list Q) : option (list Q) :=
  heater_location ← heater_location x;
  let residual := residual_neumann_condition u x in
  residual_h ← residual_dirichlet_condition u t;
  selected ← Array.getitem_mask residual_h heater_location;
  Array.setitem_mask_values residual heater_location selected.

End Residuals.

(** What the masked assignment [a[m] = b[m]] leaves in [a]. *)
Definition mask_merge (a : list Q) (m : list bool) (b : list Q) : list Q :=
  zip_with (fun c p => if c : bool then snd p else fst p) m (zip a b).

(** The heater strip of the room's boundary, for one point. *)
Definition in_heater_strip (x0 x1 : Q) : Prop :=
  1 <= x0 /\ x0 <= 3 /\ 3.99 <= x1.

(** The heater test on the first two coordinates of one row. *)
Definition heater_row (row : list Q) : bool :=
  match row with
  | x0 :: x1 :: _ => Qle_bool 1 x0 && Qle_bool x0 3 && Qle_bool 3.99 x1
  | _ => false
  end.

(** ** The packaging workflow "Build and upload to PyPI"

    The workflow file is embedded as data, field by field; a small
    interpreter gives the jobs and steps the meaning GitHub Actions and the
    packaging tools give them. *)

Module Workflow.

(** *** Syntax *)

(** The event that starts a run: [github.event_name] and
    [github.event.action] (empty when the event has no activity type). *)
Record Event := { event_name : string; event_action : string }.

(** Entries of [on:]. *)
Inductive Trigger :=
| workflow_dispatch
| release (types : list string).

(** String-valued expressions; a templated value such as
    [artifact-wheel-${{ matrix.os }}] is the list of its pieces. *)
Inductive Term :=
| lit (s : string)
| github_event_name
| github_event_action
| matrix (key : string)
| secrets (name : string).

(** Conditions of [if:]. *)
Inductive Cond :=
| eq (a b : Term)
| and (c d : Cond).

Inductive Step :=
| uses (action : string) (name : string) (with_ : list (string * list Term))
| run (name : string) (script : list string).

Record Job := {
  job_id : string;
  job_name : string;
  runs_on : list string;
  matrix_os : list string;     (* strategy.matrix.os; [] without a strategy *)
  needs : list string;
  job_if : option Cond;
  steps : list Step }.

Record Workflow := {
  name : string;
  on : list Trigger;
  env : list (string * string);
  jobs : list Job }.

(** *** The workflow of the repository *)

Definition build_wheels : Job := {|
  job_id := "build_wheels";
  job_name := "Build wheels on [ ubuntu-latest ]";
  runs_on := ["ubuntu-latest"];
  matrix_os := ["ubuntu-latest"];
  needs := [];
  job_if := None;
  steps :=
    [ uses "actions/checkout@v4" "" [("fetch-depth", [lit "0"])];
      uses "actions/setup-python@v5" "Install Python"
        [("python-version", [lit "3.10"])];
      run "Install cibuildwheel"
        [ "# python -m pip install cibuildwheel";
          "pip install -U setuptools setuptools_scm wheel" ];
      run "Build wheels"
        [ "# python -m cibuildwheel --output-dir wheelhouse";
          "python setup.py bdist_wheel" ];
      uses "actions/upload-artifact@v4" ""
        [("name", [lit "artifact-wheel-"; matrix "os"]);
         ("path", [lit "./dist/*.whl"])] ] |}.

Definition build_sdist : Job := {|
  job_id := "build_sdist";
  job_name := "Build source distribution";
  runs_on := ["ubuntu-latest"];
  matrix_os := [];
  needs := [];
  job_if := None;
  steps :=
    [ uses "actions/checkout@v4" "" [("fetch-depth", [lit "0"])];
      uses "actions/setup-python@v5" "Install Python"
        [("python-version", [lit "3.10"])];
      run "Install setuptools"
        [ "pip install -U setuptools setuptools_scm wheel" ];
      run "Build sdist" [ "python setup.py sdist" ];
      uses "actions/upload-artifact@v4" ""
        [("name", [lit "artifact-sdist"]);
         ("path", [lit "dist/*.tar.gz"])] ] |}.

Section Packaging.

(** The publishing step reads its [password] input from a stored secret:
    the last line of the workflow file is
    [password: ${{ secrets.upload_pypi }}].  The job is written for any name
    of that secret; the workflow of the repository is
    [packaging repository_secret], defined after the section. *)
Variable pypi_secret : string.

Definition upload_pypi : Job := {|
  job_id := "upload_pypi";
  job_name := "";
  runs_on := ["ubuntu-latest"];
  matrix_os := [];
  needs := ["build_wheels"; "build_sdist"];
  job_if := Some (and (eq github_event_name (lit "release"))
                      (eq github_event_action (lit "published")));
  steps :=
    [ uses "actions/download-artifact@v4" ""
        [("name", [lit "artifact-sdist"]); ("path", [lit "dist"])];
      uses "actions/download-artifact@v4" ""
        [("name", [lit "artifact-wheel-ubuntu-latest"]);
         ("path", [lit "dist"])];
      uses "pypa/gh-action-pypi-publish@v1.10.2" ""
        [("user", [lit "__token__"]);
         ("password", [secrets pypi_secret])] ] |}.

Definition packaging : Workflow := {|
  name := "Build and upload to PyPI";
  on := [workflow_dispatch; release ["published"]];
  env := [("CIBW_BUILD", "cp37-* cp38-* cp39-* cp310-*");
          ("CIBW_BEFORE_BUILD", "pip install cython");
          ("CIBW_MANYLINUX_X86_64_IMAGE", "manylinux2014");
          ("CIBW_MANYLINUX_I686_IMAGE", "manylinux2014")];
  jobs := [build_wheels; build_sdist; upload_pypi] |}.

End Packaging.

(** The secret named on the last line of the workflow file, and the
    workflow of the repository. *)
Definition repository_secret : string := "upload_pypi".

Definition repository_workflow : Workflow := packaging repository_secret.

(** *** Triggers *)

Definition trigger_matches (ev : Event) (tr : Trigger) : bool :=
  match tr with
  | workflow_dispatch => String.eqb (event_name ev) "workflow_dispatch"
  | release types =>
      String.eqb (event_name ev) "release"
      && existsb (String.eqb (event_action ev)) types
  end.

Definition triggered (wf : Workflow) (ev : Event) : bool :=
  existsb (trigger_matches ev) (on wf).

(** *** Files, artifacts and the package index *)

(** What the packaging commands produce: a wheel, tagged with the version
    of the interpreter it was built with, or a source distribution. *)
Inductive Product :=
| Wheel (python : string)
| Sdist.

Record File := { dir : string; product : Product }.

Definition extension (p : Product) : string :=
  match p with
  | Wheel _ => ".whl"
  | Sdist => ".tar.gz"
  end.

(** A path pattern of the form [dir/*ext], possibly written [./dir/*ext]. *)
Definition strip_dot_slash (p : string) : string :=
  match p with
  | String "."%char (String "/"%char rest) => rest
  | _ => p
  end.

Definition glob_match (pattern : string) (f : File) : bool :=
  String.eqb (strip_dot_slash pattern) (dir f +:+ "/*" +:+ extension (product f)).

Record Publication := {
  packages : list File;
  user : string;
  password : string }.

(** *** Shell commands of [run:] steps *)

Fixpoint words_from (current : string) (s : string) : list string :=
  let flush := match current with "" => [] | _ => [current] end in
  match s with
  | "" => flush
  | String " "%char rest => flush ++ words_from "" rest
  | String c rest => words_from (current +:+ String c "") rest
  end.

Definition words (s : string) : list string := words_from "" s.

Inductive Command :=
| comment
| pip_install (arguments : list string)
| setup_py (command : string)
| cibuildwheel (output_dir : string)
| unknown.

Definition parse_command (line : string) : Command :=
  match words line with
  | [] => comment
  | String "#"%char _ :: _ => comment
  | "pip" :: "install" :: arguments => pip_install arguments
  | "python" :: "-m" :: "pip" :: "install" :: arguments => pip_install arguments
  | ["python"; "setup.py"; command] => setup_py command
  | ["python"; "-m"; "cibuildwheel"; "--output-dir"; d] => cibuildwheel d
  | _ => unknown
  end.

(** A build selector of cibuildwheel, [cp310-*], names CPython 3.10. *)
Fixpoint until_dash (s : string) : string :=
  match s with
  | "" => ""
  | String "-"%char _ => ""
  | String c rest => String c (until_dash rest)
  end.

Definition selector_version (selector : string) : string :=
  match selector with
  | String "c"%char (String "p"%char (String major rest)) =>
      String major ("." +:+ until_dash rest)
  | _ => selector
  end.

Definition lookup_key {A} (k : string) (l : list (string * A)) : option A :=
  snd <$> List.find (fun p => String.eqb (fst p) k) l.

(** The interpreter versions configured for cibuildwheel. *)
Definition configured_versions (wf : Workflow) : list string :=
  match lookup_key "CIBW_BUILD" (env wf) with
  | Some selectors => selector_version <$> words selectors
  | None => []
  end.

(** *** Running a job *)

(** The machine a job runs on: whether the repository is checked out,
    the interpreter installed by [setup-python], and the build products
    in the working directory. *)
Record Runner := {
  checked_out : bool;
  python : option string;
  workspace : list File }.

Definition fresh_runner : Runner :=
  {| checked_out := false; python := None; workspace := [] |}.

Inductive Status := success | failure | skipped.

(** What a run leaves behind. *)
Record RunState := {
  artifacts : list (string * list File);
  published : list Publication;
  statuses : list (string * Status);
  workspaces : list (string * list File) }.

Definition initial : RunState :=
  {| artifacts := []; published := []; statuses := []; workspaces := [] |}.

Record Context := {
  event : Event;
  secret_store : string -> string;
  environment : list (string * string);
  matrix_values : list (string * string) }.

Definition eval_term (ctx : Context) (t : Term) : string :=
  match t with
  | lit s => s
  | github_event_name => event_name (event ctx)
  | github_event_action => event_action (event ctx)
  | matrix key => default "" (lookup_key key (matrix_values ctx))
  | secrets name => secret_store ctx name
  end.

Fixpoint eval_template (ctx : Context) (ts : list Term) : string :=
  match ts with
  | [] => ""
  | [t] => eval_term ctx t
  | t :: rest => eval_term ctx t +:+ eval_template ctx rest
  end.

(** [==] on strings ignores case. *)
Definition lower_char (c : ascii) : ascii :=
  let n := nat_of_ascii c in
  if (65 <=? n)%nat && (n <=? 90)%nat then ascii_of_nat (n + 32) else c.

Fixpoint lower (s : string) : string :=
  match s with
  | "" => ""
  | String c rest => String (lower_char c) (lower rest)
  end.

Fixpoint eval_cond (ctx : Context) (c : Cond) : bool :=
  match c with
  | eq a b => String.eqb (lower (eval_term ctx a)) (lower (eval_term ctx b))
  | and c d => eval_cond ctx c && eval_cond ctx d
  end.

Definition input (ctx : Context) (key : string)
  (with_ : list (string * list Term)) : option string :=
  eval_template ctx <$> lookup_key key with_.

Definition add_file (f : File) (r : Runner) : Runner :=
  {| checked_out := checked_out r; python := python r;
     workspace := workspace r ++ [f] |}.

(** One command of a [run:] script; [None] when the command fails.  The
    [setup.py] commands need the checked-out repository and the interpreter
    chosen by [setup-python]; cibuildwheel builds one wheel per selector of
    [CIBW_BUILD], each with the interpreter the selector names. *)
Definition exec_command (ctx : Context) (c : Command) (r : Runner)
  : option Runner :=
  match c with
  | comment => Some r
  | pip_install _ => Some r
  | setup_py "bdist_wheel" =>
      match checked_out r, python r with
      | true, Some v => Some (add_file {| dir := "dist"; product := Wheel v |} r)
      | _, _ => None
      end
  | setup_py "sdist" =>
      match checked_out r, python r with
      | true, Some _ => Some (add_file {| dir := "dist"; product := Sdist |} r)
      | _, _ => None
      end
  | setup_py _ => None
  | cibuildwheel d =>
      match checked_out r, lookup_key "CIBW_BUILD" (environment ctx) with
      | true, Some selectors =>
          Some (foldl (fun r s =>
                         add_file {| dir := d;
                                     product := Wheel (selector_version s) |} r)
                      r (words selectors))
      | _, _ => None
      end
  | unknown => None
  end.

Fixpoint exec_script (ctx : Context) (script : list string) (r : Runner)
  : option Runner :=
  match script with
  | [] => Some r
  | line :: rest =>
      match exec_command ctx (parse_command line) r with
      | Some r' => exec_script ctx rest r'
      | None => None
      end
  end.

Definition set_artifacts (a : list (string * list File)) (st : RunState) :=
  {| artifacts := a; published := published st;
     statuses := statuses st; workspaces := workspaces st |}.
Definition set_published (p : list Publication) (st : RunState) :=
  {| artifacts := artifacts st; published := p;
     statuses := statuses st; workspaces := workspaces st |}.

(** One step; [None] when the step fails.  [upload-artifact] stores the
    files matching [path] under [name] (a name can be used once);
    [download-artifact] needs the named artifact and puts its files in
    [path]; the publishing action sends the files of [dist]. *)
Definition exec_step (ctx : Context) (s : Step) (rs : Runner * RunState)
  : option (Runner * RunState) :=
  let '(r, st) := rs in
  match s with
  | run _ script =>
      match exec_script ctx script r with
      | Some r' => Some (r', st)
      | None => None
      end
  | uses "actions/checkout@v4" _ _ =>
      Some ({| checked_out := true; python := python r;
               workspace := workspace r |}, st)
  | uses "actions/setup-python@v5" _ with_ =>
      match input ctx "python-version" with_ with
      | Some v => Some ({| checked_out := checked_out r; python := Some v;
                           workspace := workspace r |}, st)
      | None => None
      end
  | uses "actions/upload-artifact@v4" _ with_ =>
      match input ctx "name" with_, input ctx "path" with_ with
      | Some n, Some p =>
          match lookup_key n (artifacts st) with
          | Some _ => None
          | None =>
              Some (r, set_artifacts
                         (artifacts st ++ [(n, List.filter (glob_match p) (workspace r))])
                         st)
          end
      | _, _ => None
      end
  | uses "actions/download-artifact@v4" _ with_ =>
      match input ctx "name" with_, input ctx "path" with_ with
      | Some n, Some p =>
          match lookup_key n (artifacts st) with
          | Some files =>
              Some (foldl (fun r f => add_file {| dir := p; product := product f |} r)
                          r files, st)
          | None => None
          end
      | _, _ => None
      end
  | uses "pypa/gh-action-pypi-publish@v1.10.2" _ with_ =>
      match input ctx "user" with_, input ctx "password" with_ with
      | Some u, Some p =>
          Some (r, set_published
                     (published st ++
                      [{| packages :=
                            List.filter (fun f => String.eqb (dir f) "dist") (workspace r);
                          user := u; password := p |}])
                     st)
      | _, _ => None
      end
  | uses _ _ _ => None
  end.

(** The steps of a job, in order; the first failure ends the job, and
    what was uploaded before it stays. *)
Fixpoint exec_steps (ctx : Context) (ss : list Step) (rs : Runner * RunState)
  : Status * (Runner * RunState) :=
  match ss with
  | [] => (success, rs)
  | s :: rest =>
      match exec_step ctx s rs with
      | Some rs' => exec_steps ctx rest rs'
      | None => (failure, rs)
      end
  end.

Definition status_of (st : RunState) (id : string) : Status :=
  default skipped (lookup_key id (statuses st)).

Definition is_success (s : Status) : bool :=
  match s with success => true | _ => false end.

(** A job runs when the jobs it needs have succeeded and its [if:]
    condition, when it has one, holds; otherwise it is skipped. *)
Definition should_run (ctx : Context) (st : RunState) (j : Job) : bool :=
  forallb (fun id => is_success (status_of st id)) (needs j)
  && match job_if j with
     | Some c => eval_cond ctx c
     | None => true
     end.

(** The matrix of a job: one instance per value of [os], or a single
    instance without matrix values. *)
Definition instances (j : Job) : list (list (string * string)) :=
  match matrix_os j with
  | [] => [[]]
  | oss => (fun os => [("os", os)]) <$> oss
  end.

Definition record_job (id : string) (s : Status) (ws : list File)
  (st : RunState) : RunState :=
  {| artifacts := artifacts st; published := published st;
     statuses := statuses st ++ [(id, s)];
     workspaces := workspaces st ++ [(id, ws)] |}.

Definition exec_instance (wf : Workflow) (ev : Event)
  (store : string -> string) (j : Job)
  (acc : Status * list File * RunState) (m : list (string * string))
  : Status * list File * RunState :=
  let '(s, ws, st) := acc in
  let ctx := {| event := ev; secret_store := store;
                environment := env wf; matrix_values := m |} in
  let '(s', (r, st')) := exec_steps ctx (steps j) (fresh_runner, st) in
  (if is_success s then s' else s, ws ++ workspace r, st').

Definition exec_job (wf : Workflow) (ev : Event) (store : string -> string)
  (st : RunState) (j : Job) : RunState :=
  let ctx := {| event := ev; secret_store := store;
                environment := env wf; matrix_values := [] |} in
  if should_run ctx st j then
    let '(s, ws, st') :=
      foldl (exec_instance wf ev store j) (success, [], st) (instances j) in
    record_job (job_id j) s ws st'
  else record_job (job_id j) skipped [] st.

(** The jobs are listed after the jobs they need, so they are run in the
    order of the file. *)
Definition run_jobs (wf : Workflow) (ev : Event) (store : string -> string)
  : RunState :=
  foldl (exec_job wf ev store) initial (jobs wf).

(** A run exists only for an event the workflow is triggered by. *)
Definition run_workflow (wf : Workflow) (ev : Event) (store : string -> string)
  : option RunState :=
  if triggered wf ev then Some (run_jobs wf ev store) else None.

(** What the two build jobs leave behind, whatever the event. *)
Definition built_state : RunState := {|
  artifacts :=
    [("artifact-wheel-ubuntu-latest",
      [{| dir := "dist"; product := Wheel "3.10" |}]);
     ("artifact-sdist", [{| dir := "dist"; product := Sdist |}])];
  published := [];
  statuses := [("build_wheels", success); ("build_sdist", success)];
  workspaces :=
    [("build_wheels", [{| dir := "dist"; product := Wheel "3.10" |}]);
     ("build_sdist", [{| dir := "dist"; product := Sdist |}])] |}.

(** The publication made by [upload_pypi], with the value of the secret. *)
Definition pypi_publication (token : string) : Publication := {|
  packages := [{| dir := "dist"; product := Sdist |};
               {| dir := "dist"; product := Wheel "3.10" |}];
  user := "__token__";
  password := token |}.

(** The commands a job really executes (comments are not commands). *)
Definition job_commands (j : Job) : list Command :=
  List.filter (fun c => match c with comment => false | _ => true end)
    (List.concat ((fun s => match s with
                            | run _ script => parse_command <$> script
                            | uses _ _ _ => []
                            end) <$> steps j)).

(** The value of the [if:] condition of [upload_pypi] for an event. *)
Definition is_published_release (ev : Event) : bool :=
  String.eqb (lower (event_name ev)) "release"
  && String.eqb (lower (event_action ev)) "published".

(** The build products a job left in its working directory. *)
Definition workspace_of (st : RunState) (id : string) : list File :=
  default [] (lookup_key id (workspaces st)).

Definition has_extension (e : string) (f : File) : bool :=
  String.eqb (extension (product f)) e.

(** The interpreter versions of the wheels among some files. *)
Definition wheel_products (fs : list File) : list string :=
  List.concat ((fun f => match product f with
                         | Wheel v => [v]
                         | Sdist => []
                         end) <$> fs).

End Workflow.

(** ** The tutorials as programs: what they construct and pass to the library *)

Module Python.

(** The expressions on the right of the notebooks' assignments. *)
#[warnings="-register-all"] Inductive Value :=
| Name (id : string)
| Attr (object : Value) (field : string)
| Int (n : Z)
| Float (q : Q)
| Bool (b : bool)
| Str (s : string)
| Mul (a b : Value)
| ListV (items : list Value)
| TupleV (items : list Value)
| CallV (callee : string) (positional : list Value)
    (keywords : list (string * Value)).

(** The assignments of a notebook, in the order of its cells. *)
Definition Namespace := list (string * Value).

(** The value a name is bound to at the end: the last assignment wins. *)
Definition lookup_name (ns : Namespace) (id : string) : option Value :=
  snd <$> List.find (fun p => String.eqb (fst p) id) (rev ns).

(** The values passed under one keyword. *)
Definition keyword (k : string) (kws : list (string * Value)) : list Value :=
  snd <$> List.filter (fun p => String.eqb (fst p) k) kws.

(** The keywords of a call, and their names. *)
Definition call_keywords (v : Value) : list (string * Value) :=
  match v with
  | CallV _ _ kws => kws
  | _ => []
  end.

Definition keys (kws : list (string * Value)) : list string := fst <$> kws.

End Python.

Module PinnTutorial.

Import Python.

(** The imports of the notebook. *)
Definition imports : list string :=
  ["torchphysics"; "numpy"; "torch"; "matplotlib"; "pytorch_lightning"; "os"].

Definition pde_condition : Value :=
  CallV "tp.conditions.PINNCondition" []
    [("module", Name "model");
     ("sampler", Name "sampler_pde_condition");
     ("residual_fn", Name "residual_pde_condition")].

Definition initial_condition : Value :=
  CallV "tp.conditions.PINNCondition" []
    [("module", Name "model");
     ("sampler", Name "sampler_initial_condition");
     ("residual_fn", Name "residual_initial_condition")].

Definition boundary_condition : Value :=
  CallV "tp.conditions.PINNCondition" []
    [("module", Name "model");
     ("sampler", Name "sampler_boundary_condition");
     ("residual_fn", Name "residual_boundary_condition")].

Definition training_conditions : Value :=
  ListV [Name "pde_condition"; Name "initial_condition";
         Name "boundary_condition"].

Definition optim : Value :=
  CallV "tp.OptimizerSetting" []
    [("optimizer_class", Name "torch.optim.Adam"); ("lr", Float 0.0005)].

Definition solver : Value :=
  CallV "tp.solver.Solver" []
    [("train_conditions", Name "training_conditions");
     ("optimizer_setting", Name "optim")].

(** [device = 1 if torch.cuda.is_available() else 0], and the value
    stored in [os.environ["CUDA_VISIBLE_DEVICES"]]. *)
Definition device (cuda_is_available : bool) : Z :=
  if cuda_is_available then 1%Z else 0%Z.

Definition CUDA_VISIBLE_DEVICES (cuda_is_available : bool) : string :=
  if cuda_is_available then "1" else "0".

(** The trainer; [gpus=device] and [checkpoint_callback=False] are
    commented out in the cell. *)
Definition trainer : Value :=
  CallV "pl.Trainer" []
    [("max_steps", Int 5000); ("logger", Bool false); ("benchmark", Bool true)].

(** The assignments of the code cells, from the spaces to the trainer
    (the plotting cells bind nothing that training uses). *)
Definition notebook : Namespace :=
  [ ("X", CallV "tp.spaces.R2" [] [("variable_name", Str "x")]);
    ("T", CallV "tp.spaces.R1" [Str "t"] []);
    ("U", CallV "tp.spaces.R1" [Str "u"] []);
    ("Omega", CallV "tp.domains.Parallelogram" []
                [("space", Name "X");
                 ("origin", ListV [Int 0; Int 0]);
                 ("corner_1", ListV [Int 5; Int 0]);
                 ("corner_2", ListV [Int 0; Int 4])]);
    ("I", CallV "tp.domains.Interval" []
            [("space", Name "T"); ("lower_bound", Int 0);
             ("upper_bound", Int 20)]);
    ("Omega_sampler", CallV "tp.samplers.RandomUniformSampler" [Name "Omega"]
                        [("n_points", Int 500)]);
    ("domain_pde_condition", Mul (Name "Omega") (Name "I"));
    ("sampler_pde_condition",
     CallV "tp.samplers.RandomUniformSampler" []
       [("domain", Name "domain_pde_condition"); ("n_points", Int 1500)]);
    ("sampler_Omega", CallV "tp.samplers.GridSampler" []
                        [("domain", Name "Omega"); ("n_points", Int 1000)]);
    ("sampler_I", CallV "tp.samplers.RandomUniformSampler" []
                    [("domain", Name "I"); ("n_points", Int 500)]);
    ("alternative_sampler_pde_condition",
     Mul (Name "sampler_Omega") (Name "sampler_I"));
    ("domain_initial_condition",
     Mul (Name "Omega") (Attr (Name "I") "boundary_left"));
    ("sampler_initial_condition",
     CallV "tp.samplers.RandomUniformSampler"
       [Name "domain_initial_condition"; Int 2500] []);
    ("domain_boundary_condition",
     Mul (Attr (Name "Omega") "boundary") (Name "I"));
    ("sampler_boundary_condition",
     CallV "tp.samplers.RandomUniformSampler"
       [Name "domain_boundary_condition"; Int 2500] []);
    ("normalization_layer",
     CallV "tp.models.NormalizationLayer" [Mul (Name "Omega") (Name "I")] []);
    ("fcn_layer",
     CallV "tp.models.FCN" []
       [("input_space", Mul (Name "X") (Name "T"));
        ("output_space", Name "U");
        ("hidden", TupleV [Int 80; Int 50; Int 50; Int 50])]);
    ("model", CallV "tp.models.Sequential"
                [Name "normalization_layer"; Name "fcn_layer"] []);
    ("pde_condition", pde_condition);
    ("initial_condition", initial_condition);
    ("boundary_condition", boundary_condition);
    ("training_conditions", training_conditions);
    ("optim", optim);
    ("solver", solver);
    ("trainer", trainer) ].

End PinnTutorial.

Module DeepRitzTutorial.

Import Python.

Definition bound_cond : Value :=
  CallV "tp.conditions.DeepRitzCondition" []
    [("module", Name "model"); ("sampler", Name "bound_sampler");
     ("integrand_fn", Name "bound_residual"); ("weight", Int 50)].

Definition pde_cond : Value :=
  CallV "tp.conditions.DeepRitzCondition" []
    [("module", Name "model"); ("sampler", Name "pde_sampler");
     ("integrand_fn", Name "energy_residual"); ("weight", Float 1.0)].

(** The assignments of the code cells up to the first solver. *)
Definition notebook : Namespace :=
  [ ("X", CallV "tp.spaces.R2" [Str "x"] []);
    ("U", CallV "tp.spaces.R1" [Str "u"] []);
    ("square", CallV "tp.domains.Parallelogram"
                 [Name "X"; ListV [Int 0; Int 0]; ListV [Int 1; Int 0];
                  ListV [Int 0; Int 1]] []);
    ("model", CallV "tp.models.DeepRitzNet" []
                [("input_space", Name "X"); ("output_space", Name "U");
                 ("width", Int 50); ("depth", Int 3)]);
    ("bound_sampler",
     CallV "tp.samplers.RandomUniformSampler"
       [Attr (Name "square") "boundary"] [("n_points", Int 50000)]);
    ("bound_cond", bound_cond);
    ("pde_sampler",
     CallV "tp.samplers.RandomUniformSampler" [Name "square"]
       [("n_points", Int 120000)]);
    ("pde_sampler",
     CallV "pde_sampler.make_static" [] [("resample_interval", Int 30)]);
    ("pde_cond", pde_cond);
    ("optim", CallV "tp.OptimizerSetting" []
                [("optimizer_class", Name "torch.optim.Adam");
                 ("lr", Float 0.0001)]);
    ("solver", CallV "tp.solver.Solver" []
                 [("train_conditions", ListV [Name "bound_cond"; Name "pde_cond"]);
                  ("optimizer_setting", Name "optim")]);
    ("trainer", CallV "pl.Trainer" []
                  [("devices", Int 1); ("num_sanity_val_steps", Int 0);
                   ("benchmark", Bool true); ("max_steps", Int 2500);
                   ("logger", Bool false);
                   ("enable_checkpointing", Bool false)]) ].

End DeepRitzTutorial.

(** ** The library's conditions and solver *)

Module Library.

Import Python.

(** Modelled from the spec: the classes [tp.conditions.PINNCondition],
    [tp.conditions.DeepRitzCondition] and [tp.solver.Solver] are not among
    the files at hand.  "Condition — a pairing of a sampler, a model, and a
    residual function defining one training loss term": a condition holds
    the three objects it was given, here by the names they are bound to. *)
Record Condition := {
  module : string;
  sampler : string;
  residual_fn : string }.

Definition is_condition_class (callee : string) : bool :=
  String.eqb callee "tp.conditions.PINNCondition"
  || String.eqb callee "tp.conditions.DeepRitzCondition".

(** Modelled from the spec: constructing a condition pairs the sampler,
    the module and the residual (for the Deep Ritz condition: integrand)
    function passed by keyword. *)
Definition construct (v : Value) : option Condition :=
  match v with
  | CallV callee [] kws =>
      if is_condition_class callee then
        match keyword "module" kws, keyword "sampler" kws,
              keyword "residual_fn" kws ++ keyword "integrand_fn" kws with
        | [Name m], [Name s], [Name r] =>
            Some {| module := m; sampler := s; residual_fn := r |}
        | _, _, _ => None
        end
      else None
  | _ => None
  end.

(** The condition constructions among the assignments of a notebook. *)
Definition is_condition_call (v : Value) : bool :=
  match v with
  | CallV callee _ _ => is_condition_class callee
  | _ => false
  end.

Definition condition_calls (ns : Namespace) : list Value :=
  List.filter is_condition_call (snd <$> ns).

(** An expression that is a name stands for what the name is bound to. *)
Definition deref (ns : Namespace) (v : Value) : option Value :=
  match v with
  | Name id => lookup_name ns id
  | _ => Some v
  end.

(** Modelled from the spec: the conditions a solver trains with, the
    items of its [train_conditions] list. *)
Definition train_conditions (ns : Namespace) (solver : Value)
  : option (list Condition) :=
  match solver with
  | CallV "tp.solver.Solver" [] kws =>
      match keyword "train_conditions" kws with
      | [v] =>
          match deref ns v with
          | Some (ListV items) =>
              mapM (fun item => c ← deref ns item; construct c) items
          | _ => None
          end
      | _ => None
      end
  | _ => None
  end.

Section Loss.

(** The points of a batch: positions and times. *)
Definition Points : Type := list (list Q) * list Q.

(** What belongs to the framework: the points a sampler draws, the
    output of a module at some points (for its current parameters),
    and the norm that turns a residual into a loss. *)
Variable sample : string -> Points.
Variable evaluate : string -> Points -> list Q.
Variable norm : list Q -> Q.

(** The residual functions defined in the notebook, by name. *)
Variable functions :
  string -> option (list Q -> list (list Q) -> list Q -> option (list Q)).

(** Modelled from the spec: "a model trained by minimizing PDE-residual
    and boundary/initial-condition losses evaluated at sampled points":
    the loss term of a condition is the norm of its residual function
    at the output of its module on the points of its sampler. *)
Definition forward (c : Condition) : option Q :=
  let points := sample (sampler c) in
  let u := evaluate (module c) points in
  f ← functions (residual_fn c);
  r ← f u (fst points) (snd points);
  Some (norm r).

(** The loss terms of a list of conditions, one per condition. *)
Definition loss_terms (conditions : list Condition) : list (option Q) :=
  forward <$> conditions.

Definition total (terms : list (option Q)) : option Q :=
  foldr (fun term acc => a ← term; b ← acc; Some (a + b)) (Some 0) terms.

(** Modelled from the spec: the training objective of a solver is the
    sum of the loss terms of its training conditions. *)
Definition training_loss (ns : Namespace) (solver : Value) : option Q :=
  conditions ← train_conditions ns solver;
  total (loss_terms conditions).

End Loss.

End Library.

(** The residual functions of the PINN tutorial, under their names; a
    residual function receives the arguments its signature names. *)
Definition pinn_functions
  (laplacian : list Q -> list (list Q) -> list Q)
  (grad : list Q -> list Q -> list Q)
  (normal : list (list Q) -> list (list Q))
  (normal_derivative : list Q -> list (list Q) -> list (list Q) -> list Q)
  (name : string)
  : option (list Q -> list (list Q) -> list Q -> option (list Q)) :=
  if String.eqb name "residual_pde_condition" then
    Some (residual_pde_condition laplacian grad)
  else if String.eqb name "residual_initial_condition" then
    Some (fun u _ _ => residual_initial_condition u)
  else if String.eqb name "residual_boundary_condition" then
    Some (residual_boundary_condition normal normal_derivative)
  else None.

(** The trainer arguments that select devices or count steps. *)
Definition device_or_step_keyword (k : string) : bool :=
  bool_decide (k ∈ ["gpus"; "devices"; "accelerator"; "num_nodes";
                    "max_steps"; "min_steps"; "max_epochs"; "min_epochs"]).

(** Modules of the Python standard library that start threads, processes
    or tasks. *)
Definition concurrency_modules : list string :=
  ["threading"; "multiprocessing"; "concurrent.futures"; "asyncio";
   "subprocess"; "_thread"].

(** ** The PINN tutorial, cell by cell

    Every code cell of [Introduction_Tutorial_PINNs.ipynb] as a list of
    statements, to read off what the notebook imports and what it calls. *)

Module Script.

(** Expressions, as the cells write them; numbers are kept as written. *)
#[warnings="-register-all"] Inductive Expr :=
| Name (id : string)
| Attr (object : Expr) (field : string)
| Num (literal : string)
| Str (s : string)
| Bool (b : bool)
| BinOp (op : string) (a b : Expr)
| IfExp (test body orelse : Expr)
| Lambda (parameters : list string) (body : Expr)
| ListE (items : list Expr)
| TupleE (items : list Expr)
| DictE (items : list (Expr * Expr))
| Slice
| Subscript (object : Expr) (index : list Expr)
| Call (callee : Expr) (positional : list Expr)
    (keywords : list (string * Expr)).

#[warnings="-register-all"] Inductive Stmt :=
| Import (module : list string) (alias : string)
| ImportFrom (module : list string) (name alias : string)
| Assign (target value : Expr)
| Def (name : string) (parameters : list string) (body : list Stmt)
| Return (value : Expr)
| ExprStmt (value : Expr).

(** [root.f1.f2...]: a name followed by attributes. *)
Definition ref (root : string) (fields : list string) : Expr :=
  fold_left Attr fields (Name root).

(** The dotted path of an expression that is called: a name and its
    attributes; the result of a call is marked by "()", an item by "[]". *)
Fixpoint path (e : Expr) : list string :=
  match e with
  | Name id => [id]
  | Attr object field => path object ++ [field]
  | Call callee _ _ => path callee ++ ["()"]
  | Subscript object _ => path object ++ ["[]"]
  | _ => ["_"]
  end.

(** The paths of all calls written in an expression, arguments first. *)
Fixpoint calls (e : Expr) : list (list string) :=
  match e with
  | Name _ | Num _ | Str _ | Bool _ | Slice => []
  | Attr object _ => calls object
  | BinOp _ a b => calls a ++ calls b
  | IfExp test body orelse => calls test ++ calls body ++ calls orelse
  | Lambda _ body => calls body
  | ListE items | TupleE items => flat_map calls items
  | DictE items =>
      flat_map (fun item => match item with
                            | (k, v) => calls k ++ calls v
                            end) items
  | Subscript object index => calls object ++ flat_map calls index
  | Call callee positional keywords =>
      calls callee ++ flat_map calls positional
      ++ flat_map (fun kw => match kw with (_, v) => calls v end) keywords
      ++ [path callee]
  end.

(** The calls written in a statement, those of function bodies included. *)
Fixpoint stmt_calls (s : Stmt) : list (list string) :=
  match s with
  | Import _ _ | ImportFrom _ _ _ => []
  | Assign target value => calls value ++ calls target
  | Def _ _ body => flat_map stmt_calls body
  | Return value | ExprStmt value => calls value
  end.

(** The imports of a statement: what is imported, and the name it gets. *)
Fixpoint stmt_imports (s : Stmt) : list (list string * string) :=
  match s with
  | Import module alias => [(module, alias)]
  | ImportFrom module name alias => [(module ++ [name], alias)]
  | Def _ _ body => flat_map stmt_imports body
  | _ => []
  end.

(** The names a statement binds at the top level of a cell. *)
Fixpoint targets (e : Expr) : list string :=
  match e with
  | Name id => [id]
  | TupleE items | ListE items => flat_map targets items
  | _ => []
  end.

Definition stmt_binds (s : Stmt) : list string :=
  match s with
  | Import _ alias | ImportFrom _ _ alias => [alias]
  | Assign target _ => targets target
  | Def name _ _ => [name]
  | _ => []
  end.

(** The names bound inside the functions a statement defines: their
    parameters and local variables. *)
Fixpoint stmt_locals (s : Stmt) : list string :=
  match s with
  | Def _ parameters body =>
      parameters ++ flat_map stmt_binds body ++ flat_map stmt_locals body
  | _ => []
  end.

Definition Notebook := list (list Stmt).

Definition imported (nb : Notebook) : list (list string * string) :=
  flat_map stmt_imports (concat nb).

(** The top-level packages a notebook imports from. *)
Definition packages (nb : Notebook) : list string :=
  (fun i => hd "" (fst i)) <$> imported nb.

(** A path with the alias at its root replaced by what was imported. *)
Definition resolve (imports : list (list string * string))
  (p : list string) : list string :=
  match p with
  | [] => []
  | root :: fields =>
      match List.find (fun i => String.eqb (snd i) root) imports with
      | Some (module, _) => module ++ fields
      | None => p
      end
  end.

(** The calls of a notebook, as written, in the order of the cells. *)
Definition written (nb : Notebook) : list (list string) :=
  flat_map stmt_calls (concat nb).

(** The distinct calls of a notebook, with the imported names resolved. *)
Definition called (nb : Notebook) : list (list string) :=
  remove_dups (resolve (imported nb) <$> written nb).

(** A path as Python writes it: [a.b().c]. *)
Definition dotted (p : list string) : string :=
  fold_left (fun acc c =>
               if String.eqb acc "" then c
               else if String.eqb c "()" || String.eqb c "[]" then acc +:+ c
               else acc +:+ "." +:+ c) p "".

(** The names a call can start from: the builtins the cells use. *)
Definition builtins : list string := ["print"; "str"].

(** The names the notebook binds itself: variables, functions, and the
    parameters and local variables of its functions. *)
Definition bound (nb : Notebook) : list string :=
  remove_dups (flat_map stmt_binds (concat nb)
               ++ flat_map stmt_locals (concat nb)).

(** Where a call starts: at an imported module, at a builtin, or at a
    name the notebook has bound (a function of the notebook, or a method
    of an object a library call returned). *)
Inductive Origin :=
| Module_ (module : list string)
| Builtin
| Own
| Unknown.

Definition origin (nb : Notebook) (p : list string) : Origin :=
  match p with
  | [] => Unknown
  | root :: _ =>
      match List.find (fun i => String.eqb (snd i) root) (imported nb) with
      | Some (module, _) => Module_ module
      | None =>
          if bool_decide (root ∈ builtins) then Builtin
          else if bool_decide (root ∈ bound nb) then Own
          else Unknown
      end
  end.

(** The facilities of Python, of [os] and of [torch] that start threads,
    processes or tasks. *)
Definition concurrency_facilities : list (list string) :=
  [ ["threading"]; ["_thread"]; ["multiprocessing"]; ["concurrent"];
    ["asyncio"]; ["subprocess"]; ["sched"]; ["queue"]; ["signal"];
    ["joblib"]; ["ray"]; ["dask"]; ["mpi4py"];
    ["torch"; "multiprocessing"]; ["torch"; "distributed"];
    ["torch"; "futures"]; ["torch"; "jit"; "fork"]; ["torch"; "jit"; "wait"];
    ["torch"; "cuda"; "Stream"]; ["torch"; "cuda"; "stream"];
    ["torch"; "set_num_threads"]; ["torch"; "set_num_interop_threads"];
    ["torch"; "nn"; "DataParallel"]; ["torch"; "nn"; "parallel"];
    ["torch"; "utils"; "data"; "DataLoader"];
    ["os"; "fork"]; ["os"; "forkpty"]; ["os"; "system"]; ["os"; "popen"];
    ["os"; "posix_spawn"]; ["os"; "posix_spawnp"]; ["os"; "startfile"];
    ["os"; "execl"]; ["os"; "execle"]; ["os"; "execlp"]; ["os"; "execlpe"];
    ["os"; "execv"]; ["os"; "execve"]; ["os"; "execvp"]; ["os"; "execvpe"];
    ["os"; "spawnl"]; ["os"; "spawnle"]; ["os"; "spawnlp"];
    ["os"; "spawnlpe"]; ["os"; "spawnv"]; ["os"; "spawnve"];
    ["os"; "spawnvp"]; ["os"; "spawnvpe"] ].

Fixpoint starts_with (facility p : list string) : bool :=
  match facility, p with
  | [], _ => true
  | f :: facility, c :: p => String.eqb f c && starts_with facility p
  | _ :: _, [] => false
  end.

(** A resolved path lies in a concurrency facility. *)
Definition concurrent (p : list string) : bool :=
  existsb (fun facility => starts_with facility p) concurrency_facilities.

(** The value last assigned to a name at the top level of the cells. *)
Definition assigned (nb : Notebook) (id : string) : option Expr :=
  last (omap (fun s => match s with
                       | Assign (Name target) value =>
                           if String.eqb target id then Some value else None
                       | _ => None
                       end) (concat nb)).

Definition keyword_names (e : Expr) : list string :=
  match e with
  | Call _ _ keywords => fst <$> keywords
  | _ => []
  end.

End Script.

Module PinnNotebook.

Import Script.

Definition tp := ref "tp".
Definition sampler (points : string) : Expr :=
  Call (tp ["samplers"; "PlotSampler"]) []
    [("plot_domain", Name "Omega"); ("n_points", Num "600");
     ("data_for_other_variables", DictE [(Str "t", Num points)])].

Definition condition (sampler residual : string) : Expr :=
  Call (tp ["conditions"; "PINNCondition"]) []
    [("module", Name "model"); ("sampler", Name sampler);
     ("residual_fn", Name residual)].

(** [tp.utils.plot(model, lambda u : u, plot_sampler,
    plot_type='contour_surface', vmin=vmin, vmax=vmax)]. *)
Definition plot_positional : Expr :=
  Call (tp ["utils"; "plot"])
    [Name "model"; Lambda ["u"] (Name "u"); Name "plot_sampler"]
    [("plot_type", Str "contour_surface");
     ("vmin", Name "vmin"); ("vmax", Name "vmax")].

Definition is_available : Expr :=
  Call (ref "torch" ["cuda"; "is_available"]) [] [].

Definition linspace (a b n : string) : Expr :=
  Call (ref "torch" ["linspace"]) [Num a; Num b; Num n] [].

Definition flatten (v : string) : Expr := Call (ref v ["flatten"]) [] [].

Definition points : Expr :=
  Call (tp ["spaces"; "Points"]) [Name "tensors"]
    [("space", BinOp "*" (Name "X") (Name "T"))].

(** The code cells, in the order of the notebook. *)
Definition cells : Notebook :=
  [ [ Import ["torchphysics"] "tp";
      Import ["numpy"] "np";
      Import ["torch"] "torch";
      ImportFrom ["matplotlib"] "pyplot" "plt" ];
    [ Assign (Name "u_0") (Num "16");
      Assign (Name "u_heater_max") (Num "40");
      Assign (Name "t_heater_max") (Num "5");
      Def "h" ["t"]
        [ Assign (Name "ht")
            (BinOp "+" (Name "u_0")
               (BinOp "*"
                  (BinOp "/" (BinOp "-" (Name "u_heater_max") (Name "u_0"))
                     (Name "t_heater_max"))
                  (Name "t")));
          Assign (Subscript (Name "ht")
                    [BinOp ">" (Name "t") (Name "t_heater_max")])
            (Name "u_heater_max");
          Return (Name "ht") ];
      Assign (Name "t")
        (Call (ref "np" ["linspace"]) [Num "0"; Num "20"; Num "200"] []);
      ExprStmt (Call (ref "plt" ["plot"])
                  [Name "t"; Call (Name "h") [Name "t"] []] []);
      ExprStmt (Call (ref "plt" ["show"]) [] []) ];
    [ Assign (Name "X")
        (Call (tp ["spaces"; "R2"]) [] [("variable_name", Str "x")]);
      Assign (Name "T") (Call (tp ["spaces"; "R1"]) [Str "t"] []);
      Assign (Name "U") (Call (tp ["spaces"; "R1"]) [Str "u"] []);
      Assign (Name "Omega")
        (Call (tp ["domains"; "Parallelogram"]) []
           [("space", Name "X");
            ("origin", ListE [Num "0"; Num "0"]);
            ("corner_1", ListE [Num "5"; Num "0"]);
            ("corner_2", ListE [Num "0"; Num "4"])]);
      Assign (Name "I")
        (Call (tp ["domains"; "Interval"]) []
           [("space", Name "T"); ("lower_bound", Num "0");
            ("upper_bound", Num "20")]) ];
    [ Assign (Name "Omega_sampler")
        (Call (tp ["samplers"; "RandomUniformSampler"]) [Name "Omega"]
           [("n_points", Num "500")]);
      Assign (Name "plot")
        (Call (tp ["utils"; "scatter"]) [Name "X"; Name "Omega_sampler"] []) ];
    [ Assign (Name "domain_pde_condition")
        (BinOp "*" (Name "Omega") (Name "I")) ];
    [ Assign (Name "sampler_pde_condition")
        (Call (tp ["samplers"; "RandomUniformSampler"]) []
           [("domain", Name "domain_pde_condition");
            ("n_points", Num "1500")]) ];
    [ Assign (Name "sampler_Omega")
        (Call (tp ["samplers"; "GridSampler"]) []
           [("domain", Name "Omega"); ("n_points", Num "1000")]);
      Assign (Name "sampler_I")
        (Call (tp ["samplers"; "RandomUniformSampler"]) []
           [("domain", Name "I"); ("n_points", Num "500")]);
      Assign (Name "alternative_sampler_pde_condition")
        (BinOp "*" (Name "sampler_Omega") (Name "sampler_I")) ];
    [ Assign (Name "domain_initial_condition")
        (BinOp "*" (Name "Omega") (ref "I" ["boundary_left"]));
      Assign (Name "sampler_initial_condition")
        (Call (tp ["samplers"; "RandomUniformSampler"])
           [Name "domain_initial_condition"; Num "2500"] []) ];
    [ Assign (Name "domain_boundary_condition")
        (BinOp "*" (ref "Omega" ["boundary"]) (Name "I"));
      Assign (Name "sampler_boundary_condition")
        (Call (tp ["samplers"; "RandomUniformSampler"])
           [Name "domain_boundary_condition"; Num "2500"] []) ];
    [ Assign (Name "plot")
        (Call (tp ["utils"; "scatter"])
           [Name "X"; Name "sampler_boundary_condition"] []) ];
    [ ExprStmt (Name "plot") ];
    [ Def "residual_pde_condition" ["u"; "x"; "t"]
        [ Return (BinOp "-"
                    (Call (tp ["utils"; "laplacian"]) [Name "u"; Name "x"] [])
                    (Call (tp ["utils"; "grad"]) [Name "u"; Name "t"] [])) ] ];
    [ Def "residual_initial_condition" ["u"]
        [ Return (BinOp "-" (Name "u") (Name "u_0")) ] ];
    [ Def "residual_dirichlet_condition" ["u"; "t"]
        [ Return (BinOp "-" (Name "u") (Call (Name "h") [Name "t"] [])) ] ];
    [ Def "residual_neumann_condition" ["u"; "x"]
        [ Assign (Name "normal_vectors")
            (Call (ref "Omega" ["boundary"; "normal"]) [Name "x"] []);
          Assign (Name "normal_derivative")
            (Call (tp ["utils"; "normal_derivative"])
               [Name "u"; Name "normal_vectors"; Name "x"] []);
          Return (Name "normal_derivative") ] ];
    [ Def "residual_boundary_condition" ["u"; "x"; "t"]
        [ Assign (Name "heater_location")
            (BinOp "&"
               (BinOp "&"
                  (BinOp ">=" (Subscript (Name "x") [Slice; Num "0"]) (Num "1"))
                  (BinOp "<=" (Subscript (Name "x") [Slice; Num "0"]) (Num "3")))
               (BinOp ">=" (Subscript (Name "x") [Slice; Num "1"])
                  (Num "3.99")));
          Assign (Name "residual")
            (Call (Name "residual_neumann_condition") [Name "u"; Name "x"] []);
          Assign (Name "residual_h")
            (Call (Name "residual_dirichlet_condition")
               [Name "u"; Name "t"] []);
          Assign (Subscript (Name "residual") [Name "heater_location"])
            (Subscript (Name "residual_h") [Name "heater_location"]);
          Return (Name "residual") ] ];
    [ Assign (Name "normalization_layer")
        (Call (tp ["models"; "NormalizationLayer"])
           [BinOp "*" (Name "Omega") (Name "I")] []) ];
    [ Assign (Name "fcn_layer")
        (Call (tp ["models"; "FCN"]) []
           [("input_space", BinOp "*" (Name "X") (Name "T"));
            ("output_space", Name "U");
            ("hidden", TupleE [Num "80"; Num "50"; Num "50"; Num "50"])]) ];
    [ Assign (Name "model")
        (Call (tp ["models"; "Sequential"])
           [Name "normalization_layer"; Name "fcn_layer"] []) ];
    [ Assign (Name "pde_condition")
        (condition "sampler_pde_condition" "residual_pde_condition");
      Assign (Name "initial_condition")
        (condition "sampler_initial_condition" "residual_initial_condition");
      Assign (Name "boundary_condition")
        (condition "sampler_boundary_condition"
           "residual_boundary_condition") ];
    [ Import ["pytorch_lightning"] "pl";
      Import ["os"] "os";
      Assign (Subscript (ref "os" ["environ"]) [Str "CUDA_VISIBLE_DEVICES"])
        (IfExp is_available (Str "1") (Str "0"));
      Assign (Name "device") (IfExp is_available (Num "1") (Num "0"));
      ExprStmt (Call (Name "print") [Str "Training on"; Name "device"] []);
      ExprStmt (Call (Name "print")
                  [BinOp "+" (Str "GPU available: ")
                     (Call (Name "str") [is_available] [])] []) ];
    [ Assign (Name "training_conditions")
        (ListE [Name "pde_condition"; Name "initial_condition";
                Name "boundary_condition"]) ];
    [ Assign (Name "optim")
        (Call (tp ["OptimizerSetting"]) []
           [("optimizer_class", ref "torch" ["optim"; "Adam"]);
            ("lr", Num "0.0005")]) ];
    [ Assign (Name "solver")
        (Call (tp ["solver"; "Solver"]) []
           [("train_conditions", Name "training_conditions");
            ("optimizer_setting", Name "optim")]) ];
    [ Assign (Name "trainer")
        (Call (ref "pl" ["Trainer"]) []
           [("max_steps", Num "5000"); ("logger", Bool false);
            ("benchmark", Bool true)]) ];
    [ ExprStmt (Call (ref "trainer" ["fit"]) [Name "solver"] []) ];
    [ Assign (Name "plot_sampler") (sampler "0.") ];
    [ Assign (Name "vmin") (Num "15");
      Assign (Name "vmax") (Num "42");
      Assign (Name "fig")
        (Call (tp ["utils"; "plot"]) []
           [("model", Name "model");
            ("plot_function", Lambda ["u"] (Name "u"));
            ("point_sampler", Name "plot_sampler");
            ("plot_type", Str "contour_surface");
            ("vmin", Name "vmin"); ("vmax", Name "vmin")]) ];
    [ Assign (Name "plot_sampler") (sampler "4.");
      Assign (Name "fig") plot_positional ];
    [ ExprStmt (Name "fig") ];
    [ Assign (Name "plot_sampler") (sampler "8.");
      Assign (Name "fig") plot_positional ];
    [ ExprStmt (Name "fig") ];
    [ Assign (Name "plot_sampler") (sampler "12.");
      Assign (Name "fig") plot_positional ];
    [ ExprStmt (Name "fig") ];
    [ Assign (Name "x_coords") (linspace "0" "5" "100");
      Assign (Name "y_coords") (linspace "0" "4" "80");
      Assign (Name "t_coords") (linspace "6" "6" "1");
      Assign (TupleE [Name "xs"; Name "ys"; Name "ts"])
        (Call (ref "torch" ["meshgrid"])
           [ListE [Name "x_coords"; Name "y_coords"; Name "t_coords"]] []);
      Assign (Name "tensors")
        (Call (ref "torch" ["stack"])
           [ListE [flatten "xs"; flatten "ys"; flatten "ts"]]
           [("dim", Num "1")]) ];
    [ Assign (Name "points") points ];
    [ Assign (Name "output") (Call (ref "model" ["forward"]) [points] []);
      Assign (Name "output")
        (Call (Attr
                 (Call (Attr
                          (Call (ref "output" ["as_tensor"; "reshape"])
                             [Num "100"; Num "80"; Num "1"] [])
                          "detach") [] [])
                 "numpy") [] []) ];
    [ ExprStmt (Call (ref "plt" ["imshow"])
                  [Call (ref "np" ["rot90"])
                     [Subscript (Name "output") [Slice; Slice]] [];
                   Str "gray"]
                  [("vmin", Name "vmin"); ("vmax", Name "vmax")]);
      ExprStmt (Call (ref "plt" ["show"]) [] []) ] ].

End PinnNotebook.


(** ** The room of the PINN tutorial

    [Omega = Parallelogram(origin=[0,0], corner_1=[5,0], corner_2=[0,4])] is
    the rectangle of width 5 and height 4; the heater is the part
    [1,3] x {4} of its boundary. *)

Definition room_width : Q := 5.
Definition room_height : Q := 4.

Definition on_room_boundary (x0 x1 : Q) : Prop :=
  (0 <= x0 /\ x0 <= room_width) /\ (0 <= x1 /\ x1 <= room_height) /\
  (x0 == 0 \/ x0 == room_width \/ x1 == 0 \/ x1 == room_height).

Definition on_heater (x0 x1 : Q) : Prop :=
  (1 <= x0 /\ x0 <= 3) /\ x1 == room_height.

(** ** Two-dimensional tensors

    For the Deep Ritz tutorial a tensor of shape (n, d) is kept as the list
    of its n rows, also when d = 1 (a tensor without rows carries no
    width). *)

Module Tensor.

(** A binary operation along one dimension, with broadcasting: the sizes
    agree, or one of them is 1; otherwise the operation raises. *)
Definition broadcast {A B C} (f : A -> B -> option C)
  (a : list A) (b : list B) : option (list C) :=
  if Nat.eqb (length a) (length b)
  then mapM (fun p => f (fst p) (snd p)) (zip a b)
  else match a, b with
       | [x], _ => mapM (f x) b
       | _, [y] => mapM (fun x => f x y) a
       | _, _ => None
       end.

(** [a * b], [a - b]: entry by entry, broadcasting rows and columns. *)
Definition pointwise (f : Q -> Q -> Q)
  : list (list Q) -> list (list Q) -> option (list (list Q)) :=
  broadcast (broadcast (fun x y => Some (f x y))).

(** [torch.sin(a)], [a**2], [torch.abs(a)]: a function on every entry. *)
Definition map_entries (f : Q -> Q) (a : list (list Q)) : list (list Q) :=
  map (map f) a.

(** [c * a] with a Python scalar [c]. *)
Definition scale (c : Q) (a : list (list Q)) : list (list Q) :=
  map_entries (Qmult c) a.

(** [a[:, :k]] and [a[:, k:]]; slices never raise. *)
Definition columns_to (k : nat) (a : list (list Q)) : list (list Q) :=
  map (take k) a.
Definition columns_from (k : nat) (a : list (list Q)) : list (list Q) :=
  map (drop k) a.

(** [torch.sum(a, dim=1, keepdim=True)]. *)
Definition sum_dim1 (a : list (list Q)) : list (list Q) :=
  map (fun row => [foldr Qplus 0 row]) a.

End Tensor.

(** ** The functions of the Deep Ritz tutorial *)

Section DeepRitzFunctions.

(** [np.pi], [torch.sin] and [torch.cos] on one entry, and the gradient
    operator [tp.utils.grad] of the library. *)
Variable pi : Q.
Variable sin cos : Q -> Q.
Variable grad : list (list Q) -> list (list Q) -> list (list Q).

Definition bound_residual (u x : list (list Q)) : option (list (list Q)) :=
  bound_values ←
    Tensor.pointwise Qmult
      (Tensor.map_entries sin (Tensor.scale (pi / 2) (Tensor.columns_to 1 x)))
      (Tensor.map_entries cos (Tensor.scale (2 * pi) (Tensor.columns_from 1 x)));
  difference ← Tensor.pointwise Qminus u bound_values;
  Some (Tensor.map_entries (fun v => v ^ 2) difference).

Definition energy_residual (u x : list (list Q)) : option (list (list Q)) :=
  let grad_term :=
    Tensor.sum_dim1 (Tensor.map_entries (fun v => v ^ 2) (grad u x)) in
  with_sin ←
    Tensor.pointwise Qmult (Tensor.scale (4.25 * pi ^ 2) u)
      (Tensor.map_entries sin (Tensor.scale (pi / 2) (Tensor.columns_to 1 x)));
  source ←
    Tensor.pointwise Qmult with_sin
      (Tensor.map_entries cos (Tensor.scale (2 * pi) (Tensor.columns_from 1 x)));
  difference ← Tensor.pointwise Qminus grad_term source;
  let out := Tensor.scale 0.5 difference in
  Some out.

Definition plot_fn (u x : list (list Q)) : option (list (list Q)) :=
  exact ←
    Tensor.pointwise Qmult
      (Tensor.map_entries sin (Tensor.scale (pi / 2) (Tensor.columns_to 1 x)))
      (Tensor.map_entries cos (Tensor.scale (2 * pi) (Tensor.columns_from 1 x)));
  difference ← Tensor.pointwise Qminus u exact;
  Some (Tensor.map_entries Qabs difference).

End DeepRitzFunctions.

(** The boundary value [sin(pi/2 x_1) cos(2 pi x_2)] at one point. *)
Definition boundary_value (pi : Q) (sin cos : Q -> Q) (x1 x2 : Q) : Q :=
  sin (pi / 2 * x1) * cos (2 * pi * x2).

(** The boundary values along one row of positions: the first coordinate
    against each of the remaining ones. *)
Definition boundary_row (pi : Q) (sin cos : Q -> Q) (row : list Q) : list Q :=
  match row with
  | [] => []
  | x1 :: rest => map (fun x2 => boundary_value pi sin cos x1 x2) rest
  end.

(** ** The evaluation grid of the PINN tutorial (last cells)

    [torch.meshgrid], [flatten], [torch.stack(..., dim=1)], [reshape] and
    [np.rot90], on tensors with up to three dimensions kept as nested
    lists. *)

Module Grid.

(** [torch.meshgrid([x, y, t])] (index order i, j, k): three tensors of
    shape (|x|, |y|, |t|) holding x_i, y_j and t_k. *)
Definition meshgrid (x y t : list Q)
  : list (list (list Q)) * list (list (list Q)) * list (list (list Q)) :=
  (map (fun xi => map (fun _ => map (fun _ => xi) t) y) x,
   map (fun _ => map (fun yj => map (fun _ => yj) t) y) x,
   map (fun _ => map (fun _ => t) y) x).

(** [a.flatten()]: the entries in row-major order. *)
Definition flatten (a : list (list (list Q))) : list Q := concat (concat a).

(** [torch.stack([a, b, c], dim=1)] of three one-dimensional tensors; the
    three must have the same length. *)
Definition stack (a b c : list Q) : option (list (list Q)) :=
  if Nat.eqb (length a) (length b) && Nat.eqb (length b) (length c)
  then Some (zip_with (fun p z => [fst p; snd p; z]) (zip a b) c)
  else None.

(** The cell that builds [tensors] from the three coordinate vectors. *)
Definition tensors (x_coords y_coords t_coords : list Q)
  : option (list (list Q)) :=
  let '(xs, ys, ts) := meshgrid x_coords y_coords t_coords in
  stack (flatten xs) (flatten ys) (flatten ts).

(** [a.reshape(n1, n2, n3)] of a two-dimensional tensor: the entries in
    row-major order, cut into n1 blocks of n2 rows of n3 entries; raises
    when the number of entries is not n1 * n2 * n3. *)
Definition reshape (n1 n2 n3 : nat) (a : list (list Q))
  : option (list (list (list Q))) :=
  let flat := concat a in
  if Nat.eqb (length flat) (n1 * n2 * n3)
  then Some (map (fun i =>
                    map (fun j => take n3 (drop ((i * n2 + j) * n3) flat))
                        (seq 0 n2))
                 (seq 0 n1))
  else None.

(** [np.transpose] of the first two axes, for a tensor with at least one
    row. *)
Definition transpose {A} (m : list (list A)) : list (list A) :=
  match m with
  | [] => []
  | row :: _ => map (fun j => omap (fun r : list A => r !! j) m)
                    (seq 0 (length row))
  end.

(** [np.rot90(m)]: the transpose of [m] flipped along its second axis. *)
Definition rot90 {A} (m : list (list A)) : list (list A) :=
  transpose (map reverse m).

(** The cells from [tensors] to the image: the model is evaluated on the
    grid points, its output reshaped to (n1, n2, n3) and rotated. *)
Definition image (model : list (list Q) -> list (list Q))
  (x_coords y_coords t_coords : list Q) (n1 n2 n3 : nat)
  : option (list (list (list Q))) :=
  points ← tensors x_coords y_coords t_coords;
  output ← reshape n1 n2 n3 (model points);
  Some (rot90 output).

End Grid.

(** The grid points in the order of the stacked tensor. *)
Definition grid_cells (x y t : list Q) : list (list Q) :=
  flat_map (fun xi => flat_map (fun yj => map (fun tk => [xi; yj; tk]) t) y) x.

(** ** The artifacts of the packaging workflow *)

(** The names a job passes to the steps that use [action] (to store or to
    fetch an artifact), for every instance of its matrix. *)
Definition artifact_names (action : string) (wf : Workflow.Workflow)
  (ev : Workflow.Event) (store : string -> string) (j : Workflow.Job)
  : list string :=
  flat_map
    (fun m =>
       let ctx := {| Workflow.event := ev; Workflow.secret_store := store;
                     Workflow.environment := Workflow.env wf;
                     Workflow.matrix_values := m |} in
       flat_map
         (fun s =>
            match s with
            | Workflow.uses a _ with_ =>
                if String.eqb a action
                then option_list (Workflow.input ctx "name" with_)
                else []
            | Workflow.run _ _ => []
            end)
         (Workflow.steps j))
    (Workflow.instances j).

(** The workflow with its two build jobs in the other order: the two need
    nothing from each other, and the platform may finish either first. *)
Definition packaging_sdist_first (pypi_secret : string) : Workflow.Workflow := {|
  Workflow.name := Workflow.name (Workflow.packaging pypi_secret);
  Workflow.on := Workflow.on (Workflow.packaging pypi_secret);
  Workflow.env := Workflow.env (Workflow.packaging pypi_secret);
  Workflow.jobs := [Workflow.build_sdist; Workflow.build_wheels;
                    Workflow.upload_pypi pypi_secret] |}.

(** * Properties of the heater temperature and of the residuals *)

Lemma gtb_true x c : Array.gtb x c = true <-> c < x.
Proof.
  unfold Array.gtb. rewrite negb_true_iff.
  destruct (Qle_bool x c) eqn:E.
  - apply Qle_bool_iff in E. split; [discriminate | intros; lra].
  - split; [intros _ | reflexivity].
    destruct (Qlt_le_dec c x) as [L | L]; [exact L |].
    apply Qle_bool_iff in L. congruence.
Qed.

Lemma slope_value : (u_heater_max - u_0) / t_heater_max = 24 # 5.
Proof. reflexivity. Qed.

Lemma heater_temperature_unfold ti :
  (if Array.gtb ti t_heater_max then u_heater_max
   else u_0 + (u_heater_max - u_0) / t_heater_max * ti) = heater_temperature ti.
Proof.
  unfold heater_temperature, Qmin, GenericMinMax.gmin.
  set (e := u_0 + (u_heater_max - u_0) / t_heater_max * ti).
  assert (Hgt : t_heater_max < ti <-> u_heater_max < e).
  { unfold e. rewrite slope_value.
    unfold u_0, u_heater_max, t_heater_max. split; intros; lra. }
  destruct (Array.gtb ti t_heater_max) eqn:G.
  - apply gtb_true in G. apply Hgt in G.
    apply Qgt_alt in G. rewrite G. reflexivity.
  - destruct (e ?= u_heater_max) eqn:C; try reflexivity.
    apply Qgt_alt in C. apply Hgt in C. apply gtb_true in C. congruence.
Qed.

Lemma h_map t : h t = Some (map heater_temperature t).
Proof.
  unfold h, Array.scalar_add, Array.scalar_mul, Array.gt_scalar.
  induction t as [| ti t IH]; [reflexivity |].
  cbn [map Array.setitem_mask]. rewrite IH. cbn.
  rewrite heater_temperature_unfold. reflexivity.
Qed.

Lemma heater_temperature_le_max t : heater_temperature t <= u_heater_max.
Proof. apply Q.le_min_r. Qed.

Lemma heater_temperature_mono a b :
  a <= b -> heater_temperature a <= heater_temperature b.
Proof.
  intros Hab. unfold heater_temperature.
  apply Q.min_le_compat_r. rewrite slope_value.
  unfold u_0, u_heater_max, t_heater_max. lra.
Qed.

Lemma heater_temperature_at_max : heater_temperature t_heater_max == u_heater_max.
Proof. reflexivity. Qed.

Lemma heater_temperature_near_max t :
  Qabs (heater_temperature t - u_heater_max) <= (24 # 5) * Qabs (t - t_heater_max).
Proof.
  unfold heater_temperature.
  set (e := u_0 + (u_heater_max - u_0) / t_heater_max * t).
  assert (He : e - u_heater_max == (24 # 5) * (t - t_heater_max)).
  { unfold e. rewrite slope_value.
    unfold u_0, u_heater_max, t_heater_max. lra. }
  destruct (Q.min_spec e u_heater_max) as [[Hlt Hm] | [Hle Hm]]; rewrite Hm.
  - rewrite He, Qabs_Qmult. apply Qle_refl.
  - assert (Hz : u_heater_max - u_heater_max == 0) by lra.
    rewrite Hz. change (Qabs 0) with 0. apply Qmult_le_0_compat; [lra | apply Qabs_nonneg].
Qed.

(** C6: for every input array [t], [h t] returns an array of the same length
    whose i-th entry is min(u_0 + (u_heater_max - u_0)/t_heater_max * t_i,
    u_heater_max) = min(16 + 24/5 * t_i, 40); as a function of one time the
    temperature is monotone nondecreasing, takes the value 40 at 5, is
    continuous there, and never exceeds 40. *)
Theorem h_is_clamped_ramp :
  (forall t : list Q, exists r,
      h t = Some r /\ length r = length t /\
      forall (i : nat) (ti : Q), t !! i = Some ti ->
        r !! i = Some (heater_temperature ti) /\
        heater_temperature ti
          = Qmin (u_0 + (u_heater_max - u_0) / t_heater_max * ti) u_heater_max /\
        heater_temperature ti = Qmin (16 + (24 # 5) * ti) 40) /\
  (forall a b, a <= b -> heater_temperature a <= heater_temperature b) /\
  heater_temperature 5 == 40 /\
  (forall eps, 0 < eps -> exists delta, 0 < delta /\
      forall t, Qabs (t - 5) < delta -> Qabs (heater_temperature t - 40) < eps) /\
  (forall ti, heater_temperature ti <= 40).
Proof.
  split; [| split; [| split; [| split]]].
  - intros t. exists (map heater_temperature t).
    split; [apply h_map |]. split; [apply length_map |].
    intros i ti Hi. split; [| split; reflexivity].
    rewrite list_lookup_fmap, Hi. reflexivity.
  - exact heater_temperature_mono.
  - exact heater_temperature_at_max.
  - intros eps Heps. exists (eps * (5 # 24)). split; [lra |].
    intros t Ht.
    apply Qle_lt_trans with ((24 # 5) * Qabs (t - 5)).
    + exact (heater_temperature_near_max t).
    + lra.
  - exact heater_temperature_le_max.
Qed.

Lemma h_is_clamped_ramp_witness :
  heater_temperature 1 <= heater_temperature 2 /\
  (exists r, h [0; 5; 20] = Some r /\ r !! 2%nat = Some (Qmin (16 + (24 # 5) * 20) 40)).
Proof.
  destruct h_is_clamped_ramp as (Harr & Hmono & _).
  split.
  - apply (Hmono 1 2). lra.
  - destruct (Harr [0; 5; 20]) as (r & Hr & _ & Hrows).
    exists r. split; [exact Hr |].
    destruct (Hrows 2%nat 20 eq_refl) as (Hi & _ & Heq).
    rewrite Hi, Heq. reflexivity.
Defined.

(** *** [h] on the store *)

Lemma read_float_app (σ τ : Store.heap) l d :
  σ !! l = Some (Store.FloatArray d) ->
  Store.read_float l (σ ++ τ) = Some (d, σ ++ τ).
Proof.
  intros H. unfold Store.read_float.
  rewrite (lookup_app_l_Some _ _ _ _ H). reflexivity.
Qed.

Lemma h_run (σ : Store.heap) (t : Store.ref) (d : list Q) :
  σ !! t = Some (Store.FloatArray d) ->
  let slope_t := Array.scalar_mul ((u_heater_max - u_0) / t_heater_max) d in
  Store.h t σ =
    Some (S (length σ),
          σ ++ [Store.FloatArray slope_t;
                Store.FloatArray (map heater_temperature d);
                Store.BoolArray (Array.gt_scalar d t_heater_max)]).
Proof.
  intros Ht slope_t.
  pose proof (h_map d) as Hh. unfold h in Hh. fold slope_t in Hh.
  unfold Store.h, mbind, Store.M_bind, Store.bind, mret, Store.M_ret, Store.ret.
  unfold Store.np_scalar_mul, Store.np_scalar_add, Store.np_gt_scalar,
    Store.np_setitem_mask, mbind, Store.M_bind, Store.bind, Store.alloc.
  unfold Store.read_bool, Store.heap, Store.ref in *.
  rewrite <- (app_nil_r σ) at 1. rewrite (read_float_app σ [] t d Ht), app_nil_r.
  fold slope_t.
  set (σ1 := σ ++ [Store.FloatArray slope_t]).
  assert (H1 : σ1 !! length σ = Some (Store.FloatArray slope_t)).
  { unfold σ1. apply list_lookup_middle. reflexivity. }
  rewrite <- (app_nil_r σ1) at 1. rewrite (read_float_app σ1 [] _ _ H1), app_nil_r.
  set (ht := Array.scalar_add u_0 slope_t) in *.
  assert (Hlen1 : length σ1 = S (length σ)).
  { unfold σ1. rewrite length_app. cbn. lia. }
  set (σ2 := σ1 ++ [Store.FloatArray ht]).
  assert (H2 : σ2 !! S (length σ) = Some (Store.FloatArray ht)).
  { unfold σ2. apply list_lookup_middle. symmetry. exact Hlen1. }
  assert (Ht2 : σ2 !! t = Some (Store.FloatArray d)).
  { unfold σ2, σ1. rewrite <- app_assoc. apply lookup_app_l_Some, Ht. }
  rewrite <- (app_nil_r σ2) at 1. rewrite (read_float_app σ2 [] _ _ Ht2), app_nil_r.
  set (mask := Array.gt_scalar d t_heater_max) in *.
  assert (Hlen2 : length σ2 = S (S (length σ))).
  { unfold σ2. rewrite length_app, Hlen1. cbn. lia. }
  set (σ3 := σ2 ++ [Store.BoolArray mask]).
  rewrite Hlen1.
  unfold σ3 at 1. rewrite (read_float_app σ2 [Store.BoolArray mask] _ _ H2).
  fold σ3.
  assert (H3 : σ3 !! length σ2 = Some (Store.BoolArray mask)).
  { unfold σ3. apply list_lookup_middle. reflexivity. }
  rewrite H3, Hh. unfold Store.write.
  assert (Hlen3 : length σ3 = S (S (S (length σ)))).
  { unfold σ3. rewrite length_app, Hlen2. cbn. lia. }
  destruct (decide (S (length σ) < length σ3)%nat) as [_ | Hn]; [| lia].
  f_equal. f_equal.
  unfold σ3, σ2, σ1. rewrite <- !app_assoc. cbn [app].
  replace (S (length σ)) with (length σ + 1)%nat by lia.
  exact (insert_app_r σ _ 1%nat _).
Qed.

(** C7: calling [h] leaves its argument unchanged: the call returns a
    reference to a freshly allocated array holding the result, and every
    array of the store it started from, the argument included, holds its
    original value afterwards. *)
Theorem h_leaves_argument_unchanged
  (σ : Store.heap) (t : Store.ref) (d : list Q) :
  σ !! t = Some (Store.FloatArray d) ->
  exists (r : Store.ref) (σ' : Store.heap),
    Store.h t σ = Some (r, σ') /\
    σ' !! t = Some (Store.FloatArray d) /\
    r <> t /\ σ !! r = None /\
    σ' !! r = Store.FloatArray <$> h d /\
    forall l a, σ !! l = Some a -> σ' !! l = Some a.
Proof.
  intros Ht. eexists _, _. split; [apply (h_run σ t d Ht) |].
  cbv zeta. unfold Store.heap, Store.ref in *.
  pose proof (lookup_lt_Some _ _ _ Ht) as Hlt.
  split; [apply lookup_app_l_Some, Ht |].
  split; [lia |].
  split; [apply lookup_ge_None; lia |].
  split.
  - rewrite h_map. rewrite lookup_app_r by lia.
    replace (S (length σ) - length σ)%nat with 1%nat by lia. reflexivity.
  - intros l a Hl. apply lookup_app_l_Some, Hl.
Qed.

Lemma h_leaves_argument_unchanged_witness :
  exists (r : Store.ref) (σ' : Store.heap),
    Store.h 0%nat [Store.FloatArray [1; 6]] = Some (r, σ') /\
    σ' !! 0%nat = Some (Store.FloatArray [1; 6]) /\
    r <> 0%nat /\ [Store.FloatArray [1; 6]] !! r = None /\
    σ' !! r = Store.FloatArray <$> h [1; 6] /\
    forall l a, [Store.FloatArray [1; 6]] !! l = Some a -> σ' !! l = Some a.
Proof.
  apply (h_leaves_argument_unchanged [Store.FloatArray [1; 6]] 0%nat [1; 6]).
  reflexivity.
Defined.

(** *** The combined boundary residual *)

Lemma column_Some (k : nat) (x : list (list Q)) :
  Forall (fun row : list Q => (k < length row)%nat) x ->
  Array.column k x = Some (map (fun row => nth k row 0) x).
Proof.
  intros Hx. apply mapM_Some_2.
  induction Hx as [| row x Hrow _ IH]; cbn; constructor; [| exact IH].
  destruct (lookup_lt_is_Some_2 row k Hrow) as [v Hv].
  rewrite Hv. f_equal. symmetry. apply nth_lookup_Some with (d := 0) in Hv. exact Hv.
Qed.

Lemma mask_and_same_length (m1 m2 : list bool) :
  length m1 = length m2 -> Array.mask_and m1 m2 = Some (zip_with andb m1 m2).
Proof.
  intros H. unfold Array.mask_and. rewrite H, Nat.eqb_refl. reflexivity.
Qed.

Lemma heater_location_rows (x : list (list Q)) :
  Forall (fun row : list Q => (2 <= length row)%nat) x ->
  heater_location x = Some (map heater_row x).
Proof.
  intros Hx. unfold heater_location.
  rewrite (column_Some 0 x), (column_Some 1 x)
    by (eapply Forall_impl; [exact Hx | cbn; intros; lia]).
  cbn [mbind option_bind].
  unfold Array.ge_scalar, Array.le_scalar.
  rewrite mask_and_same_length by (rewrite !length_map; reflexivity).
  cbn [mbind option_bind].
  rewrite mask_and_same_length
    by (rewrite length_zip_with, !length_map; lia).
  f_equal.
  induction Hx as [| row x Hrow _ IH]; [reflexivity |].
  cbn [map zip_with]. rewrite IH. f_equal.
  destruct row as [| x0 [| x1 rest]]; cbn in Hrow; try lia. reflexivity.
Qed.

Lemma mask_merge_cons x a c m y b :
  mask_merge (x :: a) (c :: m) (y :: b) = (if c then y else x) :: mask_merge a m b.
Proof. reflexivity. Qed.

Lemma getitem_mask_total (b : list Q) (m : list bool) :
  length b = length m -> exists vs, Array.getitem_mask b m = Some vs.
Proof.
  revert m. induction b as [| y b IH]; intros [| c m] H; try discriminate.
  - exists []. reflexivity.
  - destruct (IH m) as [vs Hvs]; [cbn in H; lia |].
    cbn. rewrite Hvs. cbn. eauto.
Qed.

Lemma setitem_mask_seq_merge (a b : list Q) (m : list bool) (vs : list Q) :
  length a = length m ->
  Array.getitem_mask b m = Some vs ->
  Array.setitem_mask_seq a m vs = Some (mask_merge a m b).
Proof.
  revert a b vs.
  induction m as [| c m IH]; intros [| x a] [| y b] vs Ha Hg;
    try discriminate; cbn in Hg.
  - injection Hg as <-. reflexivity.
  - destruct (Array.getitem_mask b m) as [r |] eqn:Hr; [| discriminate].
    cbn in Hg. injection Hg as <-.
    rewrite mask_merge_cons. cbn in Ha.
    destruct c; cbn; rewrite (IH a b r) by (try lia; assumption); reflexivity.
Qed.

Lemma setitem_mask_none_selected (a b : list Q) (m : list bool) (v : Q) :
  length a = length m ->
  Array.getitem_mask b m = Some [] ->
  Array.setitem_mask a m v = Some (mask_merge a m b).
Proof.
  revert a b.
  induction m as [| c m IH]; intros [| x a] [| y b] Ha Hg;
    try discriminate; cbn in Hg; [reflexivity |].
  destruct (Array.getitem_mask b m) as [r |] eqn:Hr; [| discriminate].
  cbn in Hg. destruct c; [discriminate |]. injection Hg as ->.
  rewrite mask_merge_cons. cbn in Ha |- *.
  rewrite (IH a b) by (try lia; assumption). reflexivity.
Qed.

Lemma setitem_mask_one_selected (a b : list Q) (m : list bool) (v : Q) :
  length a = length m ->
  Array.getitem_mask b m = Some [v] ->
  Array.setitem_mask a m v = Some (mask_merge a m b).
Proof.
  revert a b.
  induction m as [| c m IH]; intros [| x a] [| y b] Ha Hg;
    try discriminate; cbn in Hg.
  destruct (Array.getitem_mask b m) as [r |] eqn:Hr; [| discriminate].
  cbn in Hg. rewrite mask_merge_cons. cbn in Ha |- *.
  destruct c.
  - injection Hg as Hy Hnil. subst y r.
    rewrite (setitem_mask_none_selected a b m v) by (try lia; assumption).
    reflexivity.
  - injection Hg as ->.
    rewrite (IH a b) by (try lia; assumption). reflexivity.
Qed.

Lemma setitem_getitem_merge (a b : list Q) (m : list bool) :
  length a = length m -> length b = length m ->
  exists vs, Array.getitem_mask b m = Some vs /\
             Array.setitem_mask_values a m vs = Some (mask_merge a m b).
Proof.
  intros Ha Hb. destruct (getitem_mask_total b m Hb) as [vs Hvs].
  exists vs. split; [exact Hvs |].
  unfold Array.setitem_mask_values.
  destruct vs as [| v [| v' vs]].
  - apply setitem_mask_seq_merge; assumption.
  - apply setitem_mask_one_selected; assumption.
  - apply setitem_mask_seq_merge; assumption.
Qed.

Lemma residual_dirichlet_rows (u t : list Q) :
  length u = length t ->
  residual_dirichlet_condition u t
    = Some (zip_with Qminus u (map heater_temperature t)).
Proof.
  intros H. unfold residual_dirichlet_condition. rewrite h_map.
  cbn [mbind option_bind]. unfold Array.sub.
  rewrite length_map, H, Nat.eqb_refl. reflexivity.
Qed.

Lemma heater_row_strip x0 x1 rest :
  heater_row (x0 :: x1 :: rest) = true <-> in_heater_strip x0 x1.
Proof.
  unfold in_heater_strip. cbn [heater_row].
  rewrite !andb_true_iff, !Qle_bool_iff. tauto.
Qed.

(** The Neumann residual is the library call
    [tp.utils.normal_derivative(u, normal_vectors, x)] on the normals
    [Omega.boundary.normal(x)]: the values first, the normals second, the
    positions third. *)
Lemma residual_neumann_condition_call
  (normal : list (list Q) -> list (list Q))
  (normal_derivative : list Q -> list (list Q) -> list (list Q) -> list Q)
  (u : list Q) (x : list (list Q)) :
  residual_neumann_condition normal normal_derivative u x
  = normal_derivative u (normal x) x.
Proof. reflexivity. Qed.

(** C5: for every batch of [n] boundary points (values [u], positions [x],
    times [t]), [residual_boundary_condition] returns a residual of [n] rows
    whose i-th row is the Dirichlet residual [u_i - h(t_i)] when [x_i] lies in
    the heater strip (1 <= x_i[0] <= 3 and x_i[1] >= 3.99), and is otherwise
    the i-th row of the normal derivative of [u] at [x], that is of
    [normal_derivative u (normal x) x], the library's normal derivative of
    the values along the boundary normals at the positions. *)
Theorem residual_boundary_condition_rows
  (normal : list (list Q) -> list (list Q))
  (normal_derivative : list Q -> list (list Q) -> list (list Q) -> list Q)
  (u : list Q) (x : list (list Q)) (t : list Q) (n : nat) :
  length u = n -> length x = n -> length t = n ->
  Forall (fun row : list Q => (2 <= length row)%nat) x ->
  length (normal_derivative u (normal x) x) = n ->
  exists residual dirichlet ht,
    residual_boundary_condition normal normal_derivative u x t = Some residual /\
    residual_dirichlet_condition u t = Some dirichlet /\
    h t = Some ht /\
    length residual = n /\
    forall (i : nat) (x0 x1 : Q) (rest : list Q) (ui ti : Q),
      x !! i = Some (x0 :: x1 :: rest) -> u !! i = Some ui -> t !! i = Some ti ->
      (in_heater_strip x0 x1 ->
         exists hti, ht !! i = Some hti /\
                     residual !! i = Some (ui - hti) /\
                     residual !! i = dirichlet !! i) /\
      (~ in_heater_strip x0 x1 ->
         residual !! i = normal_derivative u (normal x) x !! i).
Proof.
  intros Hu Hx Ht Hrows Hneu.
  rewrite <- (residual_neumann_condition_call normal normal_derivative u x)
    in Hneu |- *.
  set (neumann := residual_neumann_condition normal normal_derivative u x) in *.
  set (dirichlet := zip_with Qminus u (map heater_temperature t)).
  assert (Hd : residual_dirichlet_condition u t = Some dirichlet)
    by (apply residual_dirichlet_rows; congruence).
  assert (Hdlen : length dirichlet = n).
  { unfold dirichlet. rewrite length_zip_with, length_map. lia. }
  assert (Hmlen : length (map heater_row x) = n)
    by (rewrite length_map; exact Hx).
  destruct (setitem_getitem_merge neumann dirichlet (map heater_row x))
    as (vs & Hget & Hset); [congruence | congruence |].
  exists (mask_merge neumann (map heater_row x) dirichlet), dirichlet,
    (map heater_temperature t).
  split.
  { unfold residual_boundary_condition.
    rewrite (heater_location_rows x Hrows). cbn [mbind option_bind].
    rewrite Hd. cbn [mbind option_bind].
    rewrite Hget. cbn [mbind option_bind]. exact Hset. }
  split; [exact Hd |]. split; [apply h_map |].
  split.
  { unfold mask_merge. rewrite length_zip_with, length_zip. lia. }
  intros i x0 x1 rest ui ti Hxi Hui Hti.
  assert (Hdi : dirichlet !! i = Some (ui - heater_temperature ti)).
  { unfold dirichlet. rewrite lookup_zip_with, Hui, list_lookup_fmap, Hti.
    reflexivity. }
  destruct (lookup_lt_is_Some_2 neumann i) as [ni Hni].
  { apply lookup_lt_Some in Hui. lia. }
  assert (Hmerge : mask_merge neumann (map heater_row x) dirichlet !! i
                   = Some (if heater_row (x0 :: x1 :: rest)
                           then ui - heater_temperature ti else ni)).
  { unfold mask_merge.
    rewrite lookup_zip_with, list_lookup_fmap, Hxi. cbn [fmap option_fmap option_map mbind option_bind].
    rewrite lookup_zip_with, Hni, Hdi. reflexivity. }
  split.
  - intros Hin. apply heater_row_strip with (rest := rest) in Hin.
    exists (heater_temperature ti).
    rewrite list_lookup_fmap, Hti, Hmerge, Hin, Hdi. auto.
  - intros Hout. rewrite Hmerge, Hni.
    destruct (heater_row (x0 :: x1 :: rest)) eqn:E; [| reflexivity].
    apply heater_row_strip in E. contradiction.
Qed.

Lemma residual_boundary_condition_rows_witness :
  let normal := fun x : list (list Q) => map (map (fun c => c + 1)) x in
  let normal_derivative :=
    fun (u : list Q) (normal_vectors x : list (list Q)) =>
      zip_with (fun ui d => ui * d)
        u (zip_with (fun nv xi => hd 0 nv - 2 * hd 0 xi) normal_vectors x) in
  exists residual dirichlet ht,
    residual_boundary_condition normal normal_derivative
      [20; 30] [[2; 4]; [0; 1]] [1; 10] = Some residual /\
    residual_dirichlet_condition [20; 30] [1; 10] = Some dirichlet /\
    h [1; 10] = Some ht /\
    length residual = 2%nat /\
    forall (i : nat) (x0 x1 : Q) (rest : list Q) (ui ti : Q),
      [[2; 4]; [0; 1]] !! i = Some (x0 :: x1 :: rest) ->
      [20; 30] !! i = Some ui -> [1; 10] !! i = Some ti ->
      (in_heater_strip x0 x1 ->
         exists hti, ht !! i = Some hti /\
                     residual !! i = Some (ui - hti) /\
                     residual !! i = dirichlet !! i) /\
      (~ in_heater_strip x0 x1 ->
         residual !! i
           = normal_derivative [20; 30] (normal [[2; 4]; [0; 1]])
               [[2; 4]; [0; 1]] !! i).
Proof.
  intros normal normal_derivative.
  apply (residual_boundary_condition_rows normal normal_derivative
           [20; 30] [[2; 4]; [0; 1]] [1; 10] 2%nat).
  - reflexivity.
  - reflexivity.
  - reflexivity.
  - repeat constructor.
  - reflexivity.
Defined.

(** On the batch of the witness the library calls are told apart by their
    arguments: the second row is off the heater and carries
    [30 * (0 + 1 - 2 * 0)], the value of the normal derivative called with
    the normals second and the positions third. *)
Example residual_boundary_condition_argument_order :
  residual_boundary_condition
    (fun x : list (list Q) => map (map (fun c => c + 1)) x)
    (fun (u : list Q) (normal_vectors x : list (list Q)) =>
       zip_with (fun ui d => ui * d)
         u (zip_with (fun nv xi => hd 0 nv - 2 * hd 0 xi) normal_vectors x))
    [20; 30] [[2; 4]; [0; 1]] [1; 10]
  = Some [20 - (16 + (24 # 5) * 1); 30 * (0 + 1 - 2 * 0)].
Proof. reflexivity. Qed.

Example residual_boundary_condition_example :
  residual_boundary_condition (fun x => x) (fun u _ _ => map (fun _ => 0) u)
    [20; 30] [[2; 4]; [0; 1]] [1; 10]
  = Some [20 - (16 + (24 # 5) * 1); 0].
Proof. reflexivity. Qed.

(** * Properties of the packaging workflow *)

Section PackagingRuns.

Import Workflow.

Variable pypi_secret : string.
Variable store : string -> string.

Let wf := packaging pypi_secret.

Lemma build_jobs_run ev :
  foldl (exec_job wf ev store) initial [build_wheels; build_sdist] = built_state.
Proof. destruct ev as [n a]. vm_compute. reflexivity. Qed.

Lemma upload_pypi_run ev :
  exec_job wf ev store built_state (upload_pypi pypi_secret) =
    if is_published_release ev
    then record_job "upload_pypi" success (packages (pypi_publication (store pypi_secret)))
           (set_published [pypi_publication (store pypi_secret)] built_state)
    else record_job "upload_pypi" skipped [] built_state.
Proof.
  destruct ev as [n a]. unfold is_published_release. cbn [event_name event_action].
  unfold exec_job, should_run.
  change (forallb _ _) with true.
  cbn [andb job_if upload_pypi eval_cond eval_term event event_name event_action].
  change (lower "release") with "release".
  change (lower "published") with "published".
  destruct (String.eqb (lower n) "release" && String.eqb (lower a) "published");
    vm_compute; reflexivity.
Qed.

Lemma run_jobs_cases ev :
  run_jobs wf ev store =
    if is_published_release ev
    then record_job "upload_pypi" success (packages (pypi_publication (store pypi_secret)))
           (set_published [pypi_publication (store pypi_secret)] built_state)
    else record_job "upload_pypi" skipped [] built_state.
Proof.
  unfold run_jobs.
  change (jobs wf) with ([build_wheels; build_sdist] ++ [upload_pypi pypi_secret]).
  rewrite foldl_app, build_jobs_run. cbn [foldl]. apply upload_pypi_run.
Qed.

Lemma triggered_cases ev :
  triggered wf ev = true ->
  (event_name ev = "workflow_dispatch" /\ is_published_release ev = false) \/
  (event_name ev = "release" /\ event_action ev = "published" /\
   is_published_release ev = true).
Proof.
  unfold triggered.
  cbn [on wf packaging existsb trigger_matches].
  rewrite !orb_false_r, orb_true_iff, andb_true_iff, !String.eqb_eq.
  destruct ev as [n a]. cbn [event_name event_action].
  intros [-> | [-> ->]]; [left | right]; repeat split.
Qed.

Lemma run_workflow_Some ev st :
  run_workflow wf ev store = Some st ->
  triggered wf ev = true /\ st = run_jobs wf ev store.
Proof.
  unfold run_workflow. destruct (triggered wf ev); [| discriminate].
  intros [= <-]. split; reflexivity.
Qed.

End PackagingRuns.

(** C3: the packaging workflow is triggered by exactly two kinds of events:
    a manual workflow dispatch, or a release event of type "published"; a
    run exists for these events and for no other. *)
Theorem packaging_triggered_by_dispatch_or_published_release
  (pypi_secret : string) (store : string -> string) (ev : Workflow.Event) :
  Workflow.on (Workflow.packaging pypi_secret)
    = [Workflow.workflow_dispatch; Workflow.release ["published"]] /\
  (Workflow.triggered (Workflow.packaging pypi_secret) ev = true <->
     Workflow.event_name ev = "workflow_dispatch" \/
     (Workflow.event_name ev = "release" /\
      Workflow.event_action ev = "published")) /\
  (is_Some (Workflow.run_workflow (Workflow.packaging pypi_secret) ev store) <->
     Workflow.event_name ev = "workflow_dispatch" \/
     (Workflow.event_name ev = "release" /\
      Workflow.event_action ev = "published")).
Proof.
  assert (Htrig :
    Workflow.triggered (Workflow.packaging pypi_secret) ev = true <->
      Workflow.event_name ev = "workflow_dispatch" \/
      (Workflow.event_name ev = "release" /\
       Workflow.event_action ev = "published")).
  { unfold Workflow.triggered.
    cbn [Workflow.on Workflow.packaging existsb Workflow.trigger_matches].
    rewrite !orb_false_r, orb_true_iff, andb_true_iff, !String.eqb_eq.
    reflexivity. }
  split; [reflexivity |]. split; [exact Htrig |].
  rewrite <- Htrig. unfold Workflow.run_workflow.
  destruct (Workflow.triggered _ ev); split; intros H;
    try reflexivity; try (eexists; reflexivity).
  - destruct H as [? H]. discriminate H.
  - discriminate H.
Qed.

(** C4: on every run of the packaging workflow, whatever its trigger, each
    build job uploads its build products as workflow artifacts: the wheel
    job uploads the [.whl] files of its working directory under the name
    [artifact-wheel-<os>] for its matrix value [os], and the sdist job
    uploads the [.tar.gz] file under the name [artifact-sdist]. *)
Theorem build_jobs_upload_artifacts
  (pypi_secret : string) (store : string -> string)
  (ev : Workflow.Event) (st : Workflow.RunState) :
  Workflow.run_workflow (Workflow.packaging pypi_secret) ev store = Some st ->
  (forall os, In os (Workflow.matrix_os Workflow.build_wheels) ->
     Workflow.lookup_key ("artifact-wheel-" +:+ os) (Workflow.artifacts st)
       = Some (List.filter (Workflow.has_extension ".whl")
                 (Workflow.workspace_of st "build_wheels"))) /\
  List.filter (Workflow.has_extension ".whl")
      (Workflow.workspace_of st "build_wheels")
    = [{| Workflow.dir := "dist"; Workflow.product := Workflow.Wheel "3.10" |}] /\
  Workflow.lookup_key "artifact-sdist" (Workflow.artifacts st)
    = Some (List.filter (Workflow.has_extension ".tar.gz")
              (Workflow.workspace_of st "build_sdist")) /\
  List.filter (Workflow.has_extension ".tar.gz")
      (Workflow.workspace_of st "build_sdist")
    = [{| Workflow.dir := "dist"; Workflow.product := Workflow.Sdist |}] /\
  Workflow.status_of st "build_wheels" = Workflow.success /\
  Workflow.status_of st "build_sdist" = Workflow.success.
Proof.
  intros Hrun. apply run_workflow_Some in Hrun as [Htrig ->].
  rewrite run_jobs_cases.
  split.
  { intros os [<- | []].
    destruct (Workflow.is_published_release ev); vm_compute; reflexivity. }
  destruct (Workflow.is_published_release ev); vm_compute; repeat split.
Qed.

Lemma build_jobs_upload_artifacts_witness :
  let st := Workflow.run_jobs (Workflow.packaging "pypi_password")
              {| Workflow.event_name := "workflow_dispatch";
                 Workflow.event_action := "" |} (fun _ => "token") in
  Workflow.lookup_key "artifact-sdist" (Workflow.artifacts st)
    = Some (List.filter (Workflow.has_extension ".tar.gz")
              (Workflow.workspace_of st "build_sdist")) /\
  Workflow.status_of st "build_wheels" = Workflow.success.
Proof.
  intros st.
  destruct (build_jobs_upload_artifacts "pypi_password" (fun _ => "token")
              {| Workflow.event_name := "workflow_dispatch";
                 Workflow.event_action := "" |} st)
    as (_ & _ & Hs & _ & Hw & _); [reflexivity |].
  split; [exact Hs | exact Hw].
Defined.

(** C2: the publishing job never publishes to the package index unless the
    triggering event is a published release: for every run, something is
    published if and only if the event is a release with action
    "published"; what is published then is the sdist and the Linux wheel,
    with the user [__token__] and the stored secret as password; a manually
    dispatched run uploads the two artifacts and publishes nothing. *)
Theorem publishes_iff_published_release
  (pypi_secret : string) (store : string -> string)
  (ev : Workflow.Event) (st : Workflow.RunState) :
  Workflow.run_workflow (Workflow.packaging pypi_secret) ev store = Some st ->
  (Workflow.published st <> [] <->
     Workflow.event_name ev = "release" /\
     Workflow.event_action ev = "published") /\
  (Workflow.event_name ev = "release" /\
   Workflow.event_action ev = "published" ->
     Workflow.published st =
       [{| Workflow.packages :=
             [{| Workflow.dir := "dist"; Workflow.product := Workflow.Sdist |};
              {| Workflow.dir := "dist";
                 Workflow.product := Workflow.Wheel "3.10" |}];
           Workflow.user := "__token__";
           Workflow.password := store pypi_secret |}] /\
     Workflow.status_of st "upload_pypi" = Workflow.success) /\
  (Workflow.event_name ev = "workflow_dispatch" ->
     Workflow.published st = [] /\
     Workflow.status_of st "upload_pypi" = Workflow.skipped /\
     Workflow.artifacts st =
       [("artifact-wheel-ubuntu-latest",
         [{| Workflow.dir := "dist";
             Workflow.product := Workflow.Wheel "3.10" |}]);
        ("artifact-sdist",
         [{| Workflow.dir := "dist"; Workflow.product := Workflow.Sdist |}])]).
Proof.
  intros Hrun. apply run_workflow_Some in Hrun as [Htrig ->].
  rewrite run_jobs_cases.
  destruct (triggered_cases pypi_secret ev Htrig) as [[Hn E] | (Hn & Ha & E)];
    rewrite E.
  - split; [split; [intros H; contradiction H; reflexivity |] |].
    { intros [Hr _]. rewrite Hn in Hr. discriminate Hr. }
    split; [| intros _; repeat split].
    intros [Hr _]. rewrite Hn in Hr. discriminate Hr.
  - split; [split; [auto | discriminate] |].
    split; [intros _; split; reflexivity |].
    intros Hd. rewrite Hn in Hd. discriminate Hd.
Qed.

Lemma publishes_iff_published_release_witness :
  Workflow.published
    (Workflow.run_jobs (Workflow.packaging "pypi_password")
       {| Workflow.event_name := "release";
          Workflow.event_action := "published" |} (fun _ => "token")) <> [] /\
  Workflow.published
    (Workflow.run_jobs (Workflow.packaging "pypi_password")
       {| Workflow.event_name := "workflow_dispatch";
          Workflow.event_action := "" |} (fun _ => "token")) = [].
Proof.
  split.
  - destruct (publishes_iff_published_release "pypi_password" (fun _ => "token")
                {| Workflow.event_name := "release";
                   Workflow.event_action := "published" |} _ eq_refl)
      as (Hiff & _ & _).
    apply Hiff. split; reflexivity.
  - destruct (publishes_iff_published_release "pypi_password" (fun _ => "token")
                {| Workflow.event_name := "workflow_dispatch";
                   Workflow.event_action := "" |} _ eq_refl)
      as (_ & _ & Hd).
    apply Hd. reflexivity.
Defined.

(** C1, as stated, fails: CPython 3.7 is in the configured set, and the
    wheel job of a run builds no wheel with it. *)
Lemma no_wheel_for_each_configured_version :
  ~ (forall v,
        In v (Workflow.configured_versions (Workflow.packaging "pypi_password")) ->
        In v (Workflow.wheel_products
                (Workflow.workspace_of
                   (Workflow.run_jobs (Workflow.packaging "pypi_password")
                      {| Workflow.event_name := "release";
                         Workflow.event_action := "published" |}
                      (fun _ => "token"))
                   "build_wheels"))).
Proof.
  intros H. specialize (H "3.7").
  vm_compute in H. intuition discriminate.
Qed.

(** C1, amended: on every run the wheel job, on the Linux runner
    [ubuntu-latest], executes [pip install] and [python setup.py
    bdist_wheel] only, and builds exactly one wheel, for the interpreter it
    installs, CPython 3.10, which is one of the four configured versions;
    the sdist job builds the source distribution. *)
Theorem wheel_job_builds_one_wheel
  (pypi_secret : string) (store : string -> string)
  (ev : Workflow.Event) (st : Workflow.RunState) :
  Workflow.run_workflow (Workflow.packaging pypi_secret) ev store = Some st ->
  Workflow.runs_on Workflow.build_wheels = ["ubuntu-latest"] /\
  Workflow.job_commands Workflow.build_wheels
    = [Workflow.pip_install ["-U"; "setuptools"; "setuptools_scm"; "wheel"];
       Workflow.setup_py "bdist_wheel"] /\
  Workflow.workspace_of st "build_wheels"
    = [{| Workflow.dir := "dist"; Workflow.product := Workflow.Wheel "3.10" |}] /\
  Workflow.configured_versions (Workflow.packaging pypi_secret)
    = ["3.7"; "3.8"; "3.9"; "3.10"] /\
  Workflow.workspace_of st "build_sdist"
    = [{| Workflow.dir := "dist"; Workflow.product := Workflow.Sdist |}].
Proof.
  intros Hrun. apply run_workflow_Some in Hrun as [Htrig ->].
  rewrite run_jobs_cases.
  destruct (Workflow.is_published_release ev); vm_compute; repeat split.
Qed.

Lemma wheel_job_builds_one_wheel_witness :
  Workflow.workspace_of
    (Workflow.run_jobs (Workflow.packaging "pypi_password")
       {| Workflow.event_name := "workflow_dispatch";
          Workflow.event_action := "" |} (fun _ => "token"))
    "build_wheels"
  = [{| Workflow.dir := "dist"; Workflow.product := Workflow.Wheel "3.10" |}].
Proof.
  destruct (wheel_job_builds_one_wheel "pypi_password" (fun _ => "token")
              {| Workflow.event_name := "workflow_dispatch";
                 Workflow.event_action := "" |} _ eq_refl)
    as (_ & _ & H & _).
  exact H.
Defined.

(** * Properties of the training set-up of the tutorials *)

(** C8: in the PINN tutorial the solver trains with exactly three
    conditions, and its training objective is the sum of their three loss
    terms: the PDE-residual loss, the initial-condition loss and the
    boundary-condition loss, each the norm of its residual function at the
    output of the model on the points of that condition's own sampler; no
    other term enters the sum. *)
Theorem pinn_training_loss_is_sum_of_three_terms
  (laplacian : list Q -> list (list Q) -> list Q)
  (grad : list Q -> list Q -> list Q)
  (normal : list (list Q) -> list (list Q))
  (normal_derivative : list Q -> list (list Q) -> list (list Q) -> list Q)
  (sample : string -> Library.Points)
  (evaluate : string -> Library.Points -> list Q)
  (norm : list Q -> Q) :
  let term (sampler : string)
        (residual : list Q -> list (list Q) -> list Q -> option (list Q)) :=
    let points := sample sampler in
    norm <$> residual (evaluate "model" points) (fst points) (snd points) in
  Library.train_conditions PinnTutorial.notebook PinnTutorial.solver
    = Some [ {| Library.module := "model";
                Library.sampler := "sampler_pde_condition";
                Library.residual_fn := "residual_pde_condition" |};
             {| Library.module := "model";
                Library.sampler := "sampler_initial_condition";
                Library.residual_fn := "residual_initial_condition" |};
             {| Library.module := "model";
                Library.sampler := "sampler_boundary_condition";
                Library.residual_fn := "residual_boundary_condition" |} ] /\
  Library.training_loss sample evaluate norm
      (pinn_functions laplacian grad normal normal_derivative)
      PinnTutorial.notebook PinnTutorial.solver
    = (pde ← term "sampler_pde_condition"
               (residual_pde_condition laplacian grad);
       initial ← term "sampler_initial_condition"
                   (fun u _ _ => residual_initial_condition u);
       boundary ← term "sampler_boundary_condition"
                    (residual_boundary_condition normal normal_derivative);
       Some (pde + (initial + (boundary + 0)))).
Proof.
  intros term.
  assert (Hconds : Library.train_conditions PinnTutorial.notebook PinnTutorial.solver
    = Some [ {| Library.module := "model";
                Library.sampler := "sampler_pde_condition";
                Library.residual_fn := "residual_pde_condition" |};
             {| Library.module := "model";
                Library.sampler := "sampler_initial_condition";
                Library.residual_fn := "residual_initial_condition" |};
             {| Library.module := "model";
                Library.sampler := "sampler_boundary_condition";
                Library.residual_fn := "residual_boundary_condition" |} ])
    by (vm_compute; reflexivity).
  split; [exact Hconds |].
  unfold Library.training_loss. rewrite Hconds.
  cbn [mbind option_bind Library.loss_terms fmap list_fmap Library.total foldr].
  unfold Library.forward, term.
  cbn [Library.sampler Library.module Library.residual_fn].
  change (pinn_functions laplacian grad normal normal_derivative
            "residual_pde_condition")
    with (Some (residual_pde_condition laplacian grad)).
  change (pinn_functions laplacian grad normal normal_derivative
            "residual_initial_condition")
    with (Some (fun (u : list Q) (_ : list (list Q)) (_ : list Q) =>
                  residual_initial_condition u)).
  change (pinn_functions laplacian grad normal normal_derivative
            "residual_boundary_condition")
    with (Some (residual_boundary_condition normal normal_derivative)).
  cbn [mbind option_bind fmap option_fmap option_map].
  destruct (residual_pde_condition laplacian grad _ _ _); [| reflexivity].
  cbn [mbind option_bind option_map].
  destruct (residual_initial_condition _);
    destruct (residual_boundary_condition normal normal_derivative _ _ _);
    reflexivity.
Qed.

(** C9: every condition constructed in the tutorials (three
    [PINNCondition]s, two [DeepRitzCondition]s) is given exactly one
    sampler, one model module and one residual or integrand function, is the
    pairing of these three, and defines exactly one loss term. *)
Theorem tutorial_conditions_are_pairings :
  Library.condition_calls PinnTutorial.notebook
    = [PinnTutorial.pde_condition; PinnTutorial.initial_condition;
       PinnTutorial.boundary_condition] /\
  Library.condition_calls DeepRitzTutorial.notebook
    = [DeepRitzTutorial.bound_cond; DeepRitzTutorial.pde_cond] /\
  Forall (fun v =>
            exists m s r,
              Python.keyword "module" (Python.call_keywords v) = [Python.Name m] /\
              Python.keyword "sampler" (Python.call_keywords v) = [Python.Name s] /\
              Python.keyword "residual_fn" (Python.call_keywords v)
                ++ Python.keyword "integrand_fn" (Python.call_keywords v)
                = [Python.Name r] /\
              Library.construct v
                = Some {| Library.module := m; Library.sampler := s;
                          Library.residual_fn := r |} /\
              forall sample evaluate norm functions,
                Library.loss_terms sample evaluate norm functions
                  [{| Library.module := m; Library.sampler := s;
                      Library.residual_fn := r |}]
                = [Library.forward sample evaluate norm functions
                     {| Library.module := m; Library.sampler := s;
                        Library.residual_fn := r |}])
         (Library.condition_calls PinnTutorial.notebook
            ++ Library.condition_calls DeepRitzTutorial.notebook).
Proof.
  split; [reflexivity |]. split; [reflexivity |].
  change (Library.condition_calls PinnTutorial.notebook
            ++ Library.condition_calls DeepRitzTutorial.notebook)
    with [PinnTutorial.pde_condition; PinnTutorial.initial_condition;
          PinnTutorial.boundary_condition;
          DeepRitzTutorial.bound_cond; DeepRitzTutorial.pde_cond].
  repeat constructor; eexists _, _, _; repeat split; reflexivity.
Qed.

(** C10, as stated, fails: the trainer of the PINN tutorial is given
    keywords that neither select a device nor count steps. *)
Lemma trainer_keywords_beyond_device_and_steps :
  ~ (forall k,
        In k (Python.keys (Python.call_keywords PinnTutorial.trainer)) ->
        device_or_step_keyword k = true).
Proof.
  intros H. specialize (H "benchmark").
  assert (Hin : In "benchmark"
                  (Python.keys (Python.call_keywords PinnTutorial.trainer)))
    by (cbn; tauto).
  apply H in Hin. vm_compute in Hin. discriminate Hin.
Qed.

(** The concurrency facilities are found through the names a notebook
    imports them under: two cells appended to the tutorial, one spawning
    processes through [torch.multiprocessing], one starting a thread. *)
Example concurrent_calls_are_found :
  Script.dotted <$>
    List.filter Script.concurrent
      (Script.called
         (PinnNotebook.cells ++
          [ [ Script.Import ["torch"; "multiprocessing"] "mp";
              Script.ExprStmt
                (Script.Call (Script.ref "mp" ["spawn"])
                   [Script.Name "h"] []) ];
            [ Script.ImportFrom ["threading"] "Thread" "Thread";
              Script.ExprStmt
                (Script.Call
                   (Script.Attr
                      (Script.Call (Script.Name "Thread") []
                         [("target", Script.Name "h")])
                      "start") [] []) ] ]))
  = ["torch.multiprocessing.spawn"; "threading.Thread";
     "threading.Thread().start"].
Proof. vm_compute. reflexivity. Qed.

(** The trainer of the cells is the trainer of [PinnTutorial]. *)
Lemma cells_trainer_keywords :
  Script.keyword_names <$> Script.assigned PinnNotebook.cells "trainer"
  = Some (Python.keys (Python.call_keywords PinnTutorial.trainer)).
Proof. vm_compute. reflexivity. Qed.

(** C10, amended: the PINN tutorial computes device 1 exactly when CUDA is
    available and device 0 otherwise, and puts the same digit in
    [CUDA_VISIBLE_DEVICES]; it gives the trainer [max_steps = 5000], and
    with it [logger = False] and [benchmark = True], but no device.  It
    implements no concurrency of its own: its code cells import only
    torchphysics, numpy, torch, matplotlib.pyplot, pytorch_lightning and
    os; the calls written in them, with the imported names resolved, are
    the forty-three listed below; each starts at an imported module, at
    [print] or [str], or at a name the notebook has bound (its own
    functions, and methods of objects the libraries returned); of [torch]
    only [cuda.is_available], [linspace], [meshgrid] and [stack] are
    called, of [os] nothing; and no call goes to a facility of Python, of
    [os] or of [torch] that starts threads, processes or tasks. *)
Theorem pinn_training_configuration :
  (forall cuda, PinnTutorial.device cuda = 1%Z <-> cuda = true) /\
  (forall cuda, PinnTutorial.device cuda = 0%Z <-> cuda = false) /\
  (forall cuda, PinnTutorial.CUDA_VISIBLE_DEVICES cuda
                = if cuda then "1" else "0") /\
  Python.call_keywords PinnTutorial.trainer
    = [("max_steps", Python.Int 5000); ("logger", Python.Bool false);
       ("benchmark", Python.Bool true)] /\
  List.filter device_or_step_keyword
      (Python.keys (Python.call_keywords PinnTutorial.trainer))
    = ["max_steps"] /\
  Forall (fun m => m ∉ concurrency_modules) PinnTutorial.imports /\
  Script.packages PinnNotebook.cells = PinnTutorial.imports /\
  Script.imported PinnNotebook.cells
    = [(["torchphysics"], "tp"); (["numpy"], "np"); (["torch"], "torch");
       (["matplotlib"; "pyplot"], "plt"); (["pytorch_lightning"], "pl");
       (["os"], "os")] /\
  Script.dotted <$> Script.called PinnNotebook.cells
    = ["numpy.linspace"; "matplotlib.pyplot.plot"; "torchphysics.spaces.R2";
       "torchphysics.spaces.R1"; "torchphysics.domains.Parallelogram";
       "torchphysics.domains.Interval"; "torchphysics.samplers.GridSampler";
       "torchphysics.samplers.RandomUniformSampler";
       "torchphysics.utils.scatter"; "torchphysics.utils.laplacian";
       "torchphysics.utils.grad"; "h"; "Omega.boundary.normal";
       "torchphysics.utils.normal_derivative"; "residual_neumann_condition";
       "residual_dirichlet_condition";
       "torchphysics.models.NormalizationLayer"; "torchphysics.models.FCN";
       "torchphysics.models.Sequential";
       "torchphysics.conditions.PINNCondition"; "torch.cuda.is_available";
       "str"; "print"; "torchphysics.OptimizerSetting";
       "torchphysics.solver.Solver"; "pytorch_lightning.Trainer";
       "trainer.fit"; "torchphysics.samplers.PlotSampler";
       "torchphysics.utils.plot"; "torch.linspace"; "torch.meshgrid";
       "xs.flatten"; "ys.flatten"; "ts.flatten"; "torch.stack";
       "torchphysics.spaces.Points"; "model.forward";
       "output.as_tensor.reshape"; "output.as_tensor.reshape().detach";
       "output.as_tensor.reshape().detach().numpy"; "numpy.rot90";
       "matplotlib.pyplot.imshow"; "matplotlib.pyplot.show"] /\
  Forall (fun p => Script.origin PinnNotebook.cells p <> Script.Unknown)
    (Script.written PinnNotebook.cells) /\
  List.filter (fun p => Script.starts_with ["torch"] p
                        || Script.starts_with ["os"] p)
      (Script.called PinnNotebook.cells)
    = [["torch"; "cuda"; "is_available"]; ["torch"; "linspace"];
       ["torch"; "meshgrid"]; ["torch"; "stack"]] /\
  Forall (fun p => Script.concurrent p = false)
    (Script.called PinnNotebook.cells).
Proof.
  split; [intros []; split; intros; (reflexivity || discriminate) |].
  split; [intros []; split; intros; (reflexivity || discriminate) |].
  split; [reflexivity |]. split; [reflexivity |]. split; [reflexivity |].
  split.
  { unfold PinnTutorial.imports, concurrency_modules.
    repeat constructor; intros Hin;
      repeat (apply elem_of_cons in Hin as [Hin | Hin]; [discriminate Hin |]);
      apply elem_of_nil in Hin; exact Hin. }
  split; [vm_compute; reflexivity |].
  split; [vm_compute; reflexivity |].
  split; [vm_compute; reflexivity |].
  split.
  { assert (H : forallb (fun p => match Script.origin PinnNotebook.cells p with
                                  | Script.Unknown => false
                                  | _ => true
                                  end) (Script.written PinnNotebook.cells)
                = true) by (vm_compute; reflexivity).
    apply List.Forall_forall. intros p Hin.
    apply (proj1 (List.forallb_forall _ _) H) in Hin.
    intros E. rewrite E in Hin. discriminate Hin. }
  split; [vm_compute; reflexivity |].
  assert (H : forallb (fun p => negb (Script.concurrent p))
                (Script.called PinnNotebook.cells) = true)
    by (vm_compute; reflexivity).
  apply List.Forall_forall. intros p Hin.
  apply (proj1 (List.forallb_forall _ _) H) in Hin.
  apply negb_true_iff. exact Hin.
Qed.

(** * Further properties of the heater temperature and of the residuals *)

(** X1: on nonnegative times the heater temperature stays between the
    initial temperature [u_0] and [u_heater_max]: [h] maps every array of
    nonnegative times to an array with all entries in [16, 40]. *)
Theorem h_between_initial_and_maximal_temperature (t : list Q) :
  Forall (fun ti => 0 <= ti) t ->
  exists r, h t = Some r /\
            Forall (fun v => u_0 <= v /\ v <= u_heater_max) r.
Proof.
  intros Ht. exists (map heater_temperature t). split; [apply h_map |].
  apply Forall_fmap. eapply Forall_impl; [exact Ht |].
  intros ti Hti. cbn in Hti |- *. split; [| apply heater_temperature_le_max].
  unfold heater_temperature. apply Q.min_glb.
  - rewrite slope_value. unfold u_0. lra.
  - unfold u_0, u_heater_max. lra.
Qed.

Lemma h_between_initial_and_maximal_temperature_witness :
  exists r, h [0; 3; 20] = Some r /\
            Forall (fun v => u_0 <= v /\ v <= u_heater_max) r.
Proof.
  apply (h_between_initial_and_maximal_temperature [0; 3; 20]).
  constructor; [lra |]. constructor; [lra |]. constructor; [lra |].
  constructor.
Defined.

(** X2: two calls of [h] on the same argument return two different fresh
    arrays with equal contents, each call adds three arrays to the store
    (two results of arithmetic and the mask), and the argument still holds
    its value after both. *)
Theorem h_results_do_not_alias
  (σ : Store.heap) (t : Store.ref) (d : list Q) :
  σ !! t = Some (Store.FloatArray d) ->
  exists (r1 r2 : Store.ref) (σ1 σ2 : Store.heap),
    Store.h t σ = Some (r1, σ1) /\ Store.h t σ1 = Some (r2, σ2) /\
    r1 <> r2 /\ r1 <> t /\ r2 <> t /\
    length σ1 = (length σ + 3)%nat /\ length σ2 = (length σ + 6)%nat /\
    σ2 !! r1 = Some (Store.FloatArray (map heater_temperature d)) /\
    σ2 !! r2 = Some (Store.FloatArray (map heater_temperature d)) /\
    σ2 !! t = Some (Store.FloatArray d).
Proof.
  intros Ht.
  pose proof (lookup_lt_Some _ _ _ Ht) as Hlt.
  pose proof (h_run σ t d Ht) as H1. cbv zeta in H1.
  set (σ1 := σ ++ [Store.FloatArray
                     (Array.scalar_mul ((u_heater_max - u_0) / t_heater_max) d);
                   Store.FloatArray (map heater_temperature d);
                   Store.BoolArray (Array.gt_scalar d t_heater_max)]) in *.
  assert (Ht1 : σ1 !! t = Some (Store.FloatArray d))
    by (apply lookup_app_l_Some, Ht).
  assert (Hlen1 : length σ1 = (length σ + 3)%nat)
    by (unfold σ1; rewrite length_app; reflexivity).
  pose proof (h_run σ1 t d Ht1) as H2. cbv zeta in H2.
  eexists _, _, _, _. split; [exact H1 |]. split; [exact H2 |].
  unfold Store.heap, Store.ref in *.
  split; [lia |]. split; [lia |]. split; [lia |].
  split; [exact Hlen1 |].
  split; [rewrite length_app, Hlen1; cbn; lia |].
  split.
  { apply lookup_app_l_Some. unfold σ1.
    rewrite lookup_app_r by lia.
    replace (S (length σ) - length σ)%nat with 1%nat by lia. reflexivity. }
  split.
  { rewrite lookup_app_r by lia.
    replace (S (length σ1) - length σ1)%nat with 1%nat by lia. reflexivity. }
  apply lookup_app_l_Some, Ht1.
Qed.

Lemma h_results_do_not_alias_witness :
  exists (r1 r2 : Store.ref) (σ1 σ2 : Store.heap),
    Store.h 0%nat [Store.FloatArray [1; 6]] = Some (r1, σ1) /\
    Store.h 0%nat σ1 = Some (r2, σ2) /\
    r1 <> r2 /\ r1 <> 0%nat /\ r2 <> 0%nat /\
    length σ1 = (1 + 3)%nat /\ length σ2 = (1 + 6)%nat /\
    σ2 !! r1 = Some (Store.FloatArray (map heater_temperature [1; 6])) /\
    σ2 !! r2 = Some (Store.FloatArray (map heater_temperature [1; 6])) /\
    σ2 !! 0%nat = Some (Store.FloatArray [1; 6]).
Proof.
  apply (h_results_do_not_alias [Store.FloatArray [1; 6]] 0%nat [1; 6]).
  reflexivity.
Defined.

(** *** When the combined boundary residual is defined *)

Lemma column_Some_length (k : nat) (x : list (list Q)) (c : list Q) :
  Array.column k x = Some c ->
  Forall (fun row : list Q => (k < length row)%nat) x.
Proof.
  unfold Array.column. intros H. apply mapM_Some in H.
  induction H as [| row y x c Hrow _ IH]; constructor; [| exact IH].
  apply lookup_lt_Some in Hrow. exact Hrow.
Qed.

Lemma heater_location_Some (x : list (list Q)) (m : list bool) :
  heater_location x = Some m <->
  Forall (fun row : list Q => (2 <= length row)%nat) x /\ m = map heater_row x.
Proof.
  split.
  - intros H.
    assert (Hrows : Forall (fun row : list Q => (2 <= length row)%nat) x).
    { unfold heater_location in H.
      destruct (Array.column 0 x) as [x0 |]; [| discriminate H].
      cbn [mbind option_bind] in H.
      destruct (Array.column 1 x) as [x1 |] eqn:E1; [| discriminate H].
      apply column_Some_length in E1. exact E1. }
    split; [exact Hrows |].
    rewrite (heater_location_rows x Hrows) in H. congruence.
  - intros [Hrows ->]. apply heater_location_rows, Hrows.
Qed.

Lemma getitem_mask_Some_length (b : list Q) (m : list bool) (vs : list Q) :
  Array.getitem_mask b m = Some vs -> length b = length m.
Proof.
  revert m vs. induction b as [| y b IH]; intros [| c m] vs H;
    try discriminate H; [reflexivity |].
  cbn in H. destruct (Array.getitem_mask b m) as [r |] eqn:E; [| discriminate H].
  cbn. f_equal. exact (IH m r E).
Qed.

Lemma setitem_mask_Some_length (a : list Q) (m : list bool) (v : Q) (r : list Q) :
  Array.setitem_mask a m v = Some r -> length a = length m.
Proof.
  revert m r. induction a as [| x a IH]; intros [| c m] r H;
    try discriminate H; [reflexivity |].
  cbn in H. destruct (Array.setitem_mask a m v) as [r' |] eqn:E; [| discriminate H].
  cbn. f_equal. exact (IH m r' E).
Qed.

Lemma setitem_mask_seq_Some_length
  (a : list Q) (m : list bool) (vs r : list Q) :
  Array.setitem_mask_seq a m vs = Some r -> length a = length m.
Proof.
  revert m vs r. induction a as [| x a IH]; intros [| c m] vs r H;
    try discriminate H; [reflexivity |].
  cbn in H. destruct c.
  - destruct vs as [| v vs]; [discriminate H |].
    destruct (Array.setitem_mask_seq a m vs) as [r' |] eqn:E; [| discriminate H].
    cbn. f_equal. exact (IH m vs r' E).
  - destruct (Array.setitem_mask_seq a m vs) as [r' |] eqn:E; [| discriminate H].
    cbn. f_equal. exact (IH m vs r' E).
Qed.

Lemma setitem_mask_values_Some_length
  (a : list Q) (m : list bool) (vs r : list Q) :
  Array.setitem_mask_values a m vs = Some r -> length a = length m.
Proof.
  unfold Array.setitem_mask_values.
  destruct vs as [| v [| v' vs]]; intros H;
    first [ exact (setitem_mask_Some_length _ _ _ _ H)
          | exact (setitem_mask_seq_Some_length _ _ _ _ H) ].
Qed.

Section BoundaryResidual.

Variable normal : list (list Q) -> list (list Q).
Variable normal_derivative : list Q -> list (list Q) -> list (list Q) -> list Q.

Let neumann := residual_neumann_condition normal normal_derivative.
Let combined := residual_boundary_condition normal normal_derivative.

(** The combined residual, when defined, is the Neumann residual with the
    heater rows replaced by the Dirichlet rows. *)
Lemma residual_boundary_condition_Some (u : list Q) (x : list (list Q))
  (t r : list Q) :
  combined u x t = Some r <->
  Forall (fun row : list Q => (2 <= length row)%nat) x /\
  exists d, residual_dirichlet_condition u t = Some d /\
            length d = length x /\ length (neumann u x) = length x /\
            r = mask_merge (neumann u x) (map heater_row x) d.
Proof.
  unfold combined, residual_boundary_condition. fold (neumann u x).
  split.
  - intros H.
    destruct (heater_location x) as [m |] eqn:Em; [| discriminate H].
    apply heater_location_Some in Em as [Hrows ->].
    cbn [mbind option_bind] in H.
    destruct (residual_dirichlet_condition u t) as [d |]; [| discriminate H].
    cbn [mbind option_bind] in H.
    destruct (Array.getitem_mask d (map heater_row x)) as [vs |] eqn:Eg;
      [| discriminate H].
    cbn [mbind option_bind] in H.
    pose proof (getitem_mask_Some_length _ _ _ Eg) as Hd.
    pose proof (setitem_mask_values_Some_length _ _ _ _ H) as Hn.
    rewrite length_map in Hd, Hn.
    split; [exact Hrows |]. exists d. repeat split; try assumption.
    destruct (setitem_getitem_merge (neumann u x) d (map heater_row x))
      as (vs' & Hg' & Hs'); [rewrite length_map; lia .. |].
    congruence.
  - intros (Hrows & d & Hd & Hlen & Hn & ->).
    rewrite (heater_location_rows x Hrows). cbn [mbind option_bind].
    rewrite Hd. cbn [mbind option_bind].
    destruct (setitem_getitem_merge (neumann u x) d (map heater_row x))
      as (vs & Hg & Hs); [rewrite length_map; lia .. |].
    rewrite Hg. cbn [mbind option_bind]. exact Hs.
Qed.

End BoundaryResidual.

Lemma mask_merge_lookup (a : list Q) (m : list bool) (d : list Q) (i : nat) :
  mask_merge a m d !! i =
    (c ← m !! i; x ← a !! i; y ← d !! i; Some (if c : bool then y else x)).
Proof.
  unfold mask_merge. rewrite lookup_zip_with.
  destruct (m !! i) as [c |]; [| reflexivity]. cbn [mbind option_bind].
  rewrite lookup_zip_with.
  destruct (a !! i) as [x |]; [| reflexivity]. cbn [mbind option_bind].
  destruct (d !! i) as [y |]; reflexivity.
Qed.

Lemma mask_merge_length (a : list Q) (m : list bool) (d : list Q) :
  length a = length m -> length d = length m ->
  length (mask_merge a m d) = length m.
Proof.
  intros Ha Hd. unfold mask_merge. rewrite length_zip_with, length_zip. lia.
Qed.

(** The Dirichlet residual has [n] rows exactly when the rows of [u] and
    [t] broadcast to [n] rows. *)
Lemma residual_dirichlet_condition_rows_iff (u t : list Q) (n : nat) :
  (exists d, residual_dirichlet_condition u t = Some d /\ length d = n) <->
  (length u = length t /\ length t = n) \/
  (length t = 1%nat /\ length u = n) \/
  (length u = 1%nat /\ length t = n).
Proof.
  unfold residual_dirichlet_condition. rewrite h_map.
  cbn [mbind option_bind]. unfold Array.sub. rewrite length_map.
  destruct (Nat.eqb_spec (length u) (length t)) as [E | E].
  - split.
    + intros (d & [= <-] & Hd).
      rewrite length_zip_with, length_map in Hd. lia.
    + intros H. eexists. split; [reflexivity |].
      rewrite length_zip_with, length_map. lia.
  - destruct u as [| u0 [| u1 u]]; destruct t as [| t0 [| t1 t]];
      cbn [map length] in E |- *; try contradiction;
      (split;
       [ intros (d & Hd & Hlen); try discriminate Hd;
         injection Hd as <-; cbn [map length] in Hlen;
         rewrite ?length_map in Hlen; lia
       | intros H;
         first [ exfalso; lia
               | eexists; split; [reflexivity |];
                 cbn [map length]; rewrite ?length_map; lia ] ]).
Qed.

(** X3: for a non-empty batch of positions with two coordinates on which
    the library's normal derivative has one row per position, the combined
    boundary residual is defined exactly when the rows of [u] and [t]
    broadcast to the rows of [x]: both have as many rows as [x], or one of
    them has a single row and the other as many rows as [x]; otherwise the
    call raises. *)
Theorem residual_boundary_condition_defined_iff
  (normal : list (list Q) -> list (list Q))
  (normal_derivative : list Q -> list (list Q) -> list (list Q) -> list Q)
  (u : list Q) (x : list (list Q)) (t : list Q) :
  x <> [] ->
  Forall (fun row : list Q => length row = 2%nat) x ->
  length (normal_derivative u (normal x) x) = length x ->
  (is_Some (residual_boundary_condition normal normal_derivative u x t) <->
   (length u = length t /\ length t = length x) \/
   (length t = 1%nat /\ length u = length x) \/
   (length u = 1%nat /\ length t = length x)).
Proof.
  intros _ Hwidth Hn.
  assert (Hrows : Forall (fun row : list Q => (2 <= length row)%nat) x).
  { eapply Forall_impl; [exact Hwidth |]. cbn. intros row ->. lia. }
  rewrite <- residual_dirichlet_condition_rows_iff.
  split.
  - intros [r Hr]. apply residual_boundary_condition_Some in Hr
      as (_ & d & Hd & Hlen & _ & _).
    exists d. split; assumption.
  - intros (d & Hd & Hlen). eexists.
    apply residual_boundary_condition_Some.
    split; [exact Hrows |]. exists d. repeat split; assumption.
Qed.

Lemma residual_boundary_condition_defined_iff_witness :
  is_Some (residual_boundary_condition
             (fun x : list (list Q) => x)
             (fun (u : list Q) (normal_vectors x : list (list Q)) =>
                map (fun row : list Q => hd 0 u * hd 0 row) normal_vectors)
             [20] [[2; 4]; [0; 1]] [1; 10]) <->
  (length [20] = length [1; 10] /\
   length [1; 10] = length [[2; 4]; [0; 1]]) \/
  (length [1; 10] = 1%nat /\ length [20] = length [[2; 4]; [0; 1]]) \/
  (length [20] = 1%nat /\ length [1; 10] = length [[2; 4]; [0; 1]]).
Proof.
  apply (residual_boundary_condition_defined_iff
           (fun x : list (list Q) => x)
           (fun (u : list Q) (normal_vectors x : list (list Q)) =>
              map (fun row : list Q => hd 0 u * hd 0 row) normal_vectors)
           [20] [[2; 4]; [0; 1]] [1; 10]).
  - discriminate.
  - repeat constructor.
  - reflexivity.
Defined.

(** X4: the Dirichlet residual [u - h(t)] follows the broadcasting of the
    subtraction: row by row when [u] and [t] have as many rows, a single
    time is used for every row of [u], a single value for every time, and
    the call raises exactly when the numbers of rows differ and neither
    is 1. *)
Theorem residual_dirichlet_condition_broadcasting (u t : list Q) :
  (length u = length t ->
     residual_dirichlet_condition u t
       = Some (zip_with Qminus u (map heater_temperature t))) /\
  (forall t0, t = [t0] ->
     residual_dirichlet_condition u t
       = Some (map (fun ui => ui - heater_temperature t0) u)) /\
  (forall u0, u = [u0] ->
     residual_dirichlet_condition u t
       = Some (map (fun ti => u0 - heater_temperature ti) t)) /\
  (residual_dirichlet_condition u t = None <->
     length u <> length t /\ length u <> 1%nat /\ length t <> 1%nat).
Proof.
  unfold residual_dirichlet_condition. rewrite h_map.
  cbn [mbind option_bind]. unfold Array.sub. rewrite length_map.
  split; [intros ->; rewrite Nat.eqb_refl; reflexivity |].
  split.
  { intros t0 ->. destruct u as [| u0 [| u1 u]]; reflexivity. }
  split.
  { intros u0 ->. destruct t as [| t0 [| t1 t]]; try reflexivity.
    cbn -[heater_temperature]. rewrite List.map_map. reflexivity. }
  destruct (Nat.eqb_spec (length u) (length t)) as [E | E].
  { split; [intros H; discriminate H | intros [H _]; contradiction]. }
  destruct u as [| u0 [| u1 u]]; destruct t as [| t0 [| t1 t]];
    cbn in E |- *; try contradiction;
    (split;
     [ intros H; try discriminate H; repeat split; (lia || discriminate)
     | intros (_ & H1 & H2); try reflexivity;
       exfalso; first [apply H1; reflexivity | apply H2; reflexivity] ]).
Qed.

Lemma residual_dirichlet_condition_broadcasting_witness :
  residual_dirichlet_condition [20; 30] [10]
    = Some (map (fun ui => ui - heater_temperature 10) [20; 30]) /\
  residual_dirichlet_condition [20; 30; 40] [1; 2] = None.
Proof.
  split.
  - destruct (residual_dirichlet_condition_broadcasting [20; 30] [10])
      as (_ & H & _).
    apply (H 10). reflexivity.
  - destruct (residual_dirichlet_condition_broadcasting [20; 30; 40] [1; 2])
      as (_ & _ & _ & H).
    apply H. cbn. repeat split; lia.
Defined.

Lemma mask_merge_ext (a a' : list Q) (m : list bool) (d d' : list Q) :
  length a = length a' -> length d = length d' ->
  (forall i, m !! i = Some false -> a !! i = a' !! i) ->
  (forall i, m !! i = Some true -> d !! i = d' !! i) ->
  mask_merge a m d = mask_merge a' m d'.
Proof.
  intros Ha Hd Hoff Hon. apply list_eq. intros i.
  rewrite !mask_merge_lookup.
  destruct (m !! i) as [[|] |] eqn:Em; [| | reflexivity];
    cbn [mbind option_bind].
  - rewrite (Hon i Em).
    destruct (a !! i) as [x |] eqn:Ex, (a' !! i) as [x' |] eqn:Ex';
      cbn [mbind option_bind]; try reflexivity.
    + apply lookup_lt_Some in Ex. apply lookup_ge_None in Ex'. lia.
    + apply lookup_lt_Some in Ex'. apply lookup_ge_None in Ex. lia.
  - rewrite (Hoff i Em).
    destruct (a' !! i) as [x' |]; cbn [mbind option_bind]; [| reflexivity].
    destruct (d !! i) as [y |] eqn:Ey, (d' !! i) as [y' |] eqn:Ey';
      try reflexivity.
    + apply lookup_lt_Some in Ey. apply lookup_ge_None in Ey'. lia.
    + apply lookup_lt_Some in Ey'. apply lookup_ge_None in Ey. lia.
Qed.

(** X5: the times of the points off the heater do not matter: two batches
    with the same values and positions, and times that agree at every point
    of the heater strip, have the same combined boundary residual (and the
    call raises for both or for neither). *)
Theorem times_off_the_heater_do_not_matter
  (normal : list (list Q) -> list (list Q))
  (normal_derivative : list Q -> list (list Q) -> list (list Q) -> list Q)
  (u : list Q) (x : list (list Q)) (t t' : list Q) :
  length t = length u -> length t' = length u ->
  (forall i row, x !! i = Some row -> heater_row row = true ->
                 t !! i = t' !! i) ->
  residual_boundary_condition normal normal_derivative u x t
    = residual_boundary_condition normal normal_derivative u x t'.
Proof.
  intros Ht Ht' Hagree.
  set (d := zip_with Qminus u (map heater_temperature t)).
  set (d' := zip_with Qminus u (map heater_temperature t')).
  assert (Hd : residual_dirichlet_condition u t = Some d)
    by (apply residual_dirichlet_rows; congruence).
  assert (Hd' : residual_dirichlet_condition u t' = Some d')
    by (apply residual_dirichlet_rows; congruence).
  assert (Hlen : length d = length d').
  { unfold d, d'. rewrite !length_zip_with, !length_map. lia. }
  assert (Hrows : forall i, map heater_row x !! i = Some true -> d !! i = d' !! i).
  { intros i Hi. rewrite list_lookup_fmap in Hi.
    destruct (x !! i) as [row |] eqn:Ex; [| discriminate Hi].
    injection Hi as Hi. unfold d, d'.
    rewrite !lookup_zip_with, !list_lookup_fmap, (Hagree i row Ex Hi).
    reflexivity. }
  destruct (residual_boundary_condition normal normal_derivative u x t)
    as [r |] eqn:E.
  - apply residual_boundary_condition_Some in E
      as (Hx & d0 & Hd0 & Hl0 & Hn & ->).
    assert (d0 = d) by congruence. subst d0.
    symmetry. apply residual_boundary_condition_Some.
    split; [exact Hx |]. exists d'. repeat split; try assumption; try lia.
    apply mask_merge_ext; auto.
  - destruct (residual_boundary_condition normal normal_derivative u x t')
      as [r' |] eqn:E'; [| reflexivity].
    apply residual_boundary_condition_Some in E'
      as (Hx & d0 & Hd0 & Hl0 & Hn & ->).
    assert (d0 = d') by congruence. subst d0.
    assert (Hsome : residual_boundary_condition normal normal_derivative u x t
                    = Some (mask_merge
                              (residual_neumann_condition normal normal_derivative u x)
                              (map heater_row x) d)).
    { apply residual_boundary_condition_Some.
      split; [exact Hx |]. exists d. repeat split; try assumption; lia. }
    congruence.
Qed.

Lemma times_off_the_heater_do_not_matter_witness :
  residual_boundary_condition (fun x => x) (fun u _ _ => map (fun _ => 0) u)
    [20; 30] [[2; 4]; [0; 1]] [1; 10]
  = residual_boundary_condition (fun x => x) (fun u _ _ => map (fun _ => 0) u)
      [20; 30] [[2; 4]; [0; 1]] [1; 3].
Proof.
  apply (times_off_the_heater_do_not_matter (fun x => x)
           (fun u _ _ => map (fun _ => 0) u)
           [20; 30] [[2; 4]; [0; 1]] [1; 10] [1; 3]);
    try reflexivity.
  intros [| [| i]] row Hrow Hheater; cbn in Hrow; try discriminate Hrow.
  - reflexivity.
  - injection Hrow as <-. discriminate Hheater.
Defined.

(** X6: the normal derivative at the points of the heater does not matter:
    with two normal-derivative operators whose results have one row per
    point and agree at every point off the heater strip, the combined
    boundary residual is the same. *)
Theorem normal_derivative_on_the_heater_does_not_matter
  (normal normal' : list (list Q) -> list (list Q))
  (normal_derivative normal_derivative' :
     list Q -> list (list Q) -> list (list Q) -> list Q)
  (u : list Q) (x : list (list Q)) (t : list Q) :
  length (residual_neumann_condition normal normal_derivative u x) = length x ->
  length (residual_neumann_condition normal' normal_derivative' u x) = length x ->
  (forall i row, x !! i = Some row -> heater_row row = false ->
     residual_neumann_condition normal normal_derivative u x !! i
       = residual_neumann_condition normal' normal_derivative' u x !! i) ->
  residual_boundary_condition normal normal_derivative u x t
    = residual_boundary_condition normal' normal_derivative' u x t.
Proof.
  intros Hn Hn' Hagree.
  assert (Hoff : forall i, map heater_row x !! i = Some false ->
            residual_neumann_condition normal normal_derivative u x !! i
            = residual_neumann_condition normal' normal_derivative' u x !! i).
  { intros i Hi. rewrite list_lookup_fmap in Hi.
    destruct (x !! i) as [row |] eqn:Ex; [| discriminate Hi].
    injection Hi as Hi. exact (Hagree i row Ex Hi). }
  destruct (residual_boundary_condition normal normal_derivative u x t)
    as [r |] eqn:E.
  - apply residual_boundary_condition_Some in E
      as (Hx & d & Hd & Hl & _ & ->).
    symmetry. apply residual_boundary_condition_Some.
    split; [exact Hx |]. exists d. repeat split; try assumption.
    apply mask_merge_ext; auto; lia.
  - destruct (residual_boundary_condition normal' normal_derivative' u x t)
      as [r' |] eqn:E'; [| reflexivity].
    apply residual_boundary_condition_Some in E'
      as (Hx & d & Hd & Hl & _ & ->).
    assert (Hsome : residual_boundary_condition normal normal_derivative u x t
                    = Some (mask_merge
                              (residual_neumann_condition normal normal_derivative u x)
                              (map heater_row x) d)).
    { apply residual_boundary_condition_Some.
      split; [exact Hx |]. exists d. repeat split; assumption. }
    congruence.
Qed.

Lemma normal_derivative_on_the_heater_does_not_matter_witness :
  residual_boundary_condition (fun x => x) (fun u _ _ => map (fun _ => 0) u)
    [20; 30] [[2; 4]; [0; 1]] [1; 10]
  = residual_boundary_condition (fun x => x) (fun u _ _ => [7; 0])
      [20; 30] [[2; 4]; [0; 1]] [1; 10].
Proof.
  apply (normal_derivative_on_the_heater_does_not_matter
           (fun x => x) (fun x => x)
           (fun u _ _ => map (fun _ => 0) u) (fun u _ _ => [7; 0])
           [20; 30] [[2; 4]; [0; 1]] [1; 10]);
    try reflexivity.
  intros [| [| i]] row Hrow Hheater; cbn in Hrow; try discriminate Hrow.
  - injection Hrow as <-. discriminate Hheater.
  - reflexivity.
Defined.

(** X7: for a batch of matching shapes, when no point lies in the heater
    strip the combined boundary residual is the Neumann residual itself, and
    when every point lies in it the combined residual is the Dirichlet
    residual. *)
Theorem residual_boundary_condition_off_and_on_the_heater
  (normal : list (list Q) -> list (list Q))
  (normal_derivative : list Q -> list (list Q) -> list (list Q) -> list Q)
  (u : list Q) (x : list (list Q)) (t d : list Q) :
  Forall (fun row : list Q => (2 <= length row)%nat) x ->
  length (residual_neumann_condition normal normal_derivative u x) = length x ->
  residual_dirichlet_condition u t = Some d -> length d = length x ->
  (Forall (fun row => heater_row row = false) x ->
     residual_boundary_condition normal normal_derivative u x t
       = Some (residual_neumann_condition normal normal_derivative u x)) /\
  (Forall (fun row => heater_row row = true) x ->
     residual_boundary_condition normal normal_derivative u x t = Some d).
Proof.
  intros Hx Hn Hd Hlen.
  set (neumann := residual_neumann_condition normal normal_derivative u x) in *.
  assert (Hr : residual_boundary_condition normal normal_derivative u x t
               = Some (mask_merge neumann (map heater_row x) d)).
  { apply residual_boundary_condition_Some.
    split; [exact Hx |]. exists d. repeat split; assumption. }
  rewrite Hr.
  split; intros Hall; f_equal; apply list_eq; intros i;
    rewrite mask_merge_lookup, list_lookup_fmap;
    destruct (x !! i) as [row |] eqn:Ex; cbn [fmap option_fmap option_map mbind option_bind].
  - rewrite (proj1 (Forall_lookup _ _) Hall i row Ex).
    destruct (neumann !! i) as [v |] eqn:Ev; cbn [mbind option_bind]; [| reflexivity].
    destruct (d !! i) as [y |] eqn:Ey; [reflexivity |].
    apply lookup_lt_Some in Ex. apply lookup_ge_None in Ey. lia.
  - symmetry. apply lookup_ge_None. apply lookup_ge_None in Ex. lia.
  - rewrite (proj1 (Forall_lookup _ _) Hall i row Ex).
    destruct (neumann !! i) as [v |] eqn:Ev; cbn [mbind option_bind].
    + destruct (d !! i); reflexivity.
    + apply lookup_lt_Some in Ex. apply lookup_ge_None in Ev. lia.
  - symmetry. apply lookup_ge_None. apply lookup_ge_None in Ex. lia.
Qed.

Lemma residual_boundary_condition_off_and_on_the_heater_witness :
  residual_boundary_condition (fun x => x) (fun u _ _ => map (fun _ => 0) u)
    [20; 30] [[0; 1]; [5; 2]] [1; 10]
  = Some [0; 0].
Proof.
  destruct (residual_boundary_condition_off_and_on_the_heater
              (fun x => x) (fun u _ _ => map (fun _ => 0) u)
              [20; 30] [[0; 1]; [5; 2]] [1; 10]
              (zip_with Qminus [20; 30] (map heater_temperature [1; 10])))
    as [Hoff _].
  - repeat constructor.
  - reflexivity.
  - reflexivity.
  - reflexivity.
  - apply Hoff. repeat constructor.
Defined.

Lemma heater_temperature_at_zero (ti : Q) :
  ti == 0 -> heater_temperature ti == u_0.
Proof.
  intros Hti. unfold heater_temperature.
  destruct (Q.min_spec (u_0 + (u_heater_max - u_0) / t_heater_max * ti)
              u_heater_max) as [[_ Hm] | [Hle Hm]]; rewrite Hm.
  - rewrite slope_value, Hti. unfold u_0. lra.
  - rewrite slope_value, Hti in Hle. unfold u_0, u_heater_max in Hle. lra.
Qed.

(** X8: the boundary data agree with the initial data at time 0: for a
    batch whose times are all 0 the Dirichlet residual [u - h(t)] equals,
    row by row, the residual of the initial condition [u - u_0]. *)
Theorem dirichlet_residual_at_time_zero (u t : list Q) :
  length t = length u -> Forall (fun ti => ti == 0) t ->
  exists d r,
    residual_dirichlet_condition u t = Some d /\
    residual_initial_condition u = Some r /\
    Forall2 Qeq d r.
Proof.
  intros Hlen Hzero.
  exists (zip_with Qminus u (map heater_temperature t)),
         (map (fun v => v - u_0) u).
  split; [apply residual_dirichlet_rows; congruence |].
  split; [reflexivity |].
  revert u Hlen. induction Hzero as [| ti t Hti _ IH]; intros [| ui u] Hlen;
    try discriminate Hlen; cbn -[heater_temperature]; constructor.
  - rewrite (heater_temperature_at_zero ti Hti). reflexivity.
  - apply IH. cbn in Hlen. lia.
Qed.

Lemma dirichlet_residual_at_time_zero_witness :
  exists d r,
    residual_dirichlet_condition [18; 25] [0; 0] = Some d /\
    residual_initial_condition [18; 25] = Some r /\
    Forall2 Qeq d r.
Proof.
  apply (dirichlet_residual_at_time_zero [18; 25] [0; 0]); [reflexivity |].
  constructor; [reflexivity |]. constructor; [reflexivity |]. constructor.
Defined.

(** X9: on the boundary of the room the heater test of the combined
    residual, with its tolerance 3.99, is exact: a boundary point passes
    it if and only if it lies on the heater [1,3] x {4}. *)
Theorem heater_test_is_exact_on_the_boundary (x0 x1 : Q) (rest : list Q) :
  on_room_boundary x0 x1 ->
  (heater_row (x0 :: x1 :: rest) = true <-> on_heater x0 x1).
Proof.
  unfold on_room_boundary, on_heater, room_width, room_height.
  intros ((H0 & H0') & (H1 & H1') & Hedge).
  rewrite heater_row_strip. unfold in_heater_strip.
  split.
  - intros (Ha & Hb & Hc). split; [split; assumption |].
    destruct Hedge as [E | [E | [E | E]]]; lra.
  - intros ((Ha & Hb) & Hc). repeat split; lra.
Qed.

Lemma heater_test_is_exact_on_the_boundary_witness :
  heater_row [2; 4] = true <-> on_heater 2 4.
Proof.
  apply (heater_test_is_exact_on_the_boundary 2 4 []).
  unfold on_room_boundary, room_width, room_height.
  split; [lra |]. split; [lra |]. right. right. right. reflexivity.
Defined.

(** * Properties of the functions of the Deep Ritz tutorial *)

Lemma mapM_total {A B} (g : A -> B) (l : list A) :
  mapM (fun y => Some (g y)) l = Some (map g l).
Proof.
  induction l as [| y l IH]; [reflexivity |].
  cbn. rewrite IH. reflexivity.
Qed.

Lemma broadcast_singleton_l (f : Q -> Q -> Q) (a : Q) (b : list Q) :
  Tensor.broadcast (fun x y => Some (f x y)) [a] b = Some (map (f a) b).
Proof.
  unfold Tensor.broadcast.
  destruct b as [| y [| y' b]]; cbn [length Nat.eqb]; try reflexivity.
  apply (mapM_total (f a)).
Qed.

Lemma broadcast_rows {A B C} (g : A -> B -> option C) (k : A -> B -> C)
  (a : list A) (b : list B) :
  length a = length b ->
  (forall i x y, a !! i = Some x -> b !! i = Some y -> g x y = Some (k x y)) ->
  Tensor.broadcast g a b = Some (zip_with k a b).
Proof.
  intros Hlen Hg. unfold Tensor.broadcast. rewrite Hlen, Nat.eqb_refl.
  revert b Hlen Hg. induction a as [| x a IH]; intros [| y b] Hlen Hg;
    try discriminate Hlen; [reflexivity |].
  cbn. rewrite (Hg 0%nat x y eq_refl eq_refl). cbn.
  rewrite (IH b); [reflexivity | cbn in Hlen; lia |].
  intros i x' y' Hx Hy. exact (Hg (S i) x' y' Hx Hy).
Qed.

Lemma broadcast_mismatch {A B C} (g : A -> B -> option C)
  (a : list A) (b : list B) :
  length a <> length b -> length a <> 1%nat -> length b <> 1%nat ->
  Tensor.broadcast g a b = None.
Proof.
  intros Hab Ha Hb. unfold Tensor.broadcast.
  destruct (Nat.eqb_spec (length a) (length b)) as [E | _]; [contradiction |].
  destruct a as [| x [| x' a]]; destruct b as [| y [| y' b]];
    cbn in Ha, Hb; try reflexivity; contradiction.
Qed.

Section DeepRitzProperties.

Variable pi : Q.
Variable sin cos : Q -> Q.

(** The product [sin(pi/2 x[:, :1]) * cos(2 pi x[:, 1:])], row by row. *)
Lemma boundary_values_rows (x : list (list Q)) :
  Tensor.pointwise Qmult
    (Tensor.map_entries sin (Tensor.scale (pi / 2) (Tensor.columns_to 1 x)))
    (Tensor.map_entries cos (Tensor.scale (2 * pi) (Tensor.columns_from 1 x)))
  = Some (map (boundary_row pi sin cos) x).
Proof.
  unfold Tensor.pointwise, Tensor.map_entries, Tensor.scale,
    Tensor.map_entries, Tensor.columns_to, Tensor.columns_from.
  rewrite !List.map_map.
  rewrite (broadcast_rows _
             (fun s c => match s with [a] => map (Qmult a) c | _ => [] end));
    [| rewrite !length_map; reflexivity |].
  - f_equal. induction x as [| row x IH]; [reflexivity |].
    cbn [map zip_with]. rewrite IH. f_equal.
    destruct row as [| x1 rest]; [reflexivity |].
    cbn [take map drop boundary_row]. rewrite !List.map_map. reflexivity.
  - intros i s c Hs Hc.
    rewrite list_lookup_fmap in Hs. rewrite list_lookup_fmap in Hc.
    destruct (x !! i) as [row |]; [| discriminate Hs].
    injection Hs as <-. injection Hc as <-.
    destruct row as [| x1 rest]; [reflexivity |].
    cbn [take map drop]. apply broadcast_singleton_l.
Qed.

(** The difference [u - values] for a column [u], row by row. *)
Lemma column_minus_rows (u values : list (list Q)) :
  Forall (fun row : list Q => length row = 1%nat) u ->
  length u = length values ->
  Tensor.pointwise Qminus u values
  = Some (zip_with (fun ur vr => map (Qminus (hd 0 ur)) vr) u values).
Proof.
  intros Hu Hlen. unfold Tensor.pointwise.
  apply broadcast_rows; [exact Hlen |].
  intros i ur vr Hur _.
  pose proof (proj1 (Forall_lookup _ _) Hu i ur Hur) as H1.
  destruct ur as [| ui [| ? ?]]; try discriminate H1.
  apply broadcast_singleton_l.
Qed.

Lemma bound_residual_rows (u x : list (list Q)) :
  Forall (fun row : list Q => length row = 1%nat) u ->
  length u = length x ->
  bound_residual pi sin cos u x
  = Some (zip_with (fun ur xr =>
                      map (fun b => (hd 0 ur - b) ^ 2) (boundary_row pi sin cos xr))
            u x).
Proof.
  intros Hu Hlen. unfold bound_residual.
  rewrite boundary_values_rows. cbn [mbind option_bind].
  rewrite column_minus_rows by (rewrite ?length_map; assumption).
  cbn [mbind option_bind]. f_equal. unfold Tensor.map_entries.
  clear Hu. revert x Hlen. induction u as [| ur u IH]; intros [| xr x] Hlen;
    try discriminate Hlen; [reflexivity |].
  cbn [map zip_with]. rewrite List.map_map. f_equal.
  apply IH. cbn in Hlen. lia.
Qed.

Lemma plot_fn_rows (u x : list (list Q)) :
  Forall (fun row : list Q => length row = 1%nat) u ->
  length u = length x ->
  plot_fn pi sin cos u x
  = Some (zip_with (fun ur xr =>
                      map (fun b => Qabs (hd 0 ur - b)) (boundary_row pi sin cos xr))
            u x).
Proof.
  intros Hu Hlen. unfold plot_fn.
  rewrite boundary_values_rows. cbn [mbind option_bind].
  rewrite column_minus_rows by (rewrite ?length_map; assumption).
  cbn [mbind option_bind]. f_equal. unfold Tensor.map_entries.
  clear Hu. revert x Hlen. induction u as [| ur u IH]; intros [| xr x] Hlen;
    try discriminate Hlen; [reflexivity |].
  cbn [map zip_with]. rewrite List.map_map. f_equal.
  apply IH. cbn in Hlen. lia.
Qed.

End DeepRitzProperties.

(** X10: for a batch of n values (one column) and n positions with two
    coordinates, [bound_residual] returns the n squares
    [(u_i - sin(pi/2 x_i1) cos(2 pi x_i2))^2] and [plot_fn] the n absolute
    errors; the residual is the square of the plotted error and is never
    negative. *)
Theorem bound_residual_is_squared_plot_error
  (pi : Q) (sin cos : Q -> Q) (u x : list (list Q)) (n : nat) :
  length u = n -> length x = n ->
  Forall (fun row : list Q => length row = 1%nat) u ->
  Forall (fun row : list Q => length row = 2%nat) x ->
  exists res err,
    bound_residual pi sin cos u x = Some res /\
    plot_fn pi sin cos u x = Some err /\
    length res = n /\ length err = n /\
    forall (i : nat) (ui x1 x2 : Q),
      u !! i = Some [ui] -> x !! i = Some [x1; x2] ->
      let e := Qabs (ui - boundary_value pi sin cos x1 x2) in
      let r := (ui - boundary_value pi sin cos x1 x2) ^ 2 in
      err !! i = Some [e] /\ res !! i = Some [r] /\
      r == e * e /\ 0 <= r.
Proof.
  intros Hu Hx Hu1 Hx2.
  eexists _, _.
  split; [apply bound_residual_rows; [exact Hu1 | congruence] |].
  split; [apply plot_fn_rows; [exact Hu1 | congruence] |].
  split; [rewrite length_zip_with; lia |].
  split; [rewrite length_zip_with; lia |].
  intros i ui x1 x2 Hui Hxi e r.
  split; [rewrite lookup_zip_with, Hui, Hxi; reflexivity |].
  split; [rewrite lookup_zip_with, Hui, Hxi; reflexivity |].
  unfold e, r. set (v := ui - boundary_value pi sin cos x1 x2).
  assert (Hsq : v ^ 2 == v * v) by reflexivity.
  split.
  { rewrite Hsq, <- Qabs_Qmult.
    symmetry. apply Qabs_pos. nra. }
  rewrite Hsq; nra.
Qed.

Lemma bound_residual_is_squared_plot_error_witness :
  exists res err,
    bound_residual 3 (fun v => v) (fun v => 1) [[2]; [3]] [[1; 0]; [2; 5]]
      = Some res /\
    plot_fn 3 (fun v => v) (fun v => 1) [[2]; [3]] [[1; 0]; [2; 5]]
      = Some err /\
    length res = 2%nat /\ length err = 2%nat /\
    forall (i : nat) (ui x1 x2 : Q),
      [[2]; [3]] !! i = Some [ui] -> [[1; 0]; [2; 5]] !! i = Some [x1; x2] ->
      let e := Qabs (ui - boundary_value 3 (fun v => v) (fun v => 1) x1 x2) in
      let r := (ui - boundary_value 3 (fun v => v) (fun v => 1) x1 x2) ^ 2 in
      err !! i = Some [e] /\ res !! i = Some [r] /\
      r == e * e /\ 0 <= r.
Proof.
  apply (bound_residual_is_squared_plot_error 3 (fun v => v) (fun v => 1)
           [[2]; [3]] [[1; 0]; [2; 5]] 2%nat);
    try reflexivity; repeat constructor.
Defined.

(** X11: [bound_residual] never raises on the width of the positions: for
    n values and n positions it returns n rows, and the row of a position
    with w coordinates has w - 1 entries; so positions with a single
    coordinate give rows without any entry, not an error. *)
Theorem bound_residual_width
  (pi : Q) (sin cos : Q -> Q) (u x : list (list Q)) :
  Forall (fun row : list Q => length row = 1%nat) u ->
  length u = length x ->
  exists res,
    bound_residual pi sin cos u x = Some res /\
    length res = length x /\
    forall (i : nat) (xr rr : list Q),
      x !! i = Some xr -> res !! i = Some rr ->
      length rr = (length xr - 1)%nat.
Proof.
  intros Hu Hlen. eexists.
  split; [apply bound_residual_rows; assumption |].
  split; [rewrite length_zip_with; lia |].
  intros i xr rr Hxr Hrr.
  rewrite lookup_zip_with, Hxr in Hrr.
  destruct (u !! i) as [ur |]; [| discriminate Hrr].
  injection Hrr as <-. rewrite length_map.
  destruct xr as [| x1 rest]; [reflexivity |].
  cbn [boundary_row length]. rewrite length_map. lia.
Qed.

Lemma bound_residual_width_witness :
  exists res,
    bound_residual 3 (fun v => v) (fun v => 1) [[2]; [3]] [[1]; [2]] = Some res /\
    length res = 2%nat /\
    forall (i : nat) (xr rr : list Q),
      [[1]; [2]] !! i = Some xr -> res !! i = Some rr ->
      length rr = (length xr - 1)%nat.
Proof.
  apply (bound_residual_width 3 (fun v => v) (fun v => 1) [[2]; [3]] [[1]; [2]]);
    [repeat constructor | reflexivity].
Defined.

(** X12: [bound_residual] and [plot_fn] raise when the numbers of values
    and of positions differ and neither is 1. *)
Theorem bound_residual_batch_mismatch
  (pi : Q) (sin cos : Q -> Q) (u x : list (list Q)) :
  length u <> length x -> length u <> 1%nat -> length x <> 1%nat ->
  bound_residual pi sin cos u x = None /\ plot_fn pi sin cos u x = None.
Proof.
  intros Hux Hu Hx.
  unfold bound_residual, plot_fn. rewrite boundary_values_rows.
  cbn [mbind option_bind]. unfold Tensor.pointwise.
  rewrite broadcast_mismatch by (rewrite ?length_map; assumption).
  split; reflexivity.
Qed.

Lemma bound_residual_batch_mismatch_witness :
  bound_residual 3 (fun v => v) (fun v => 1) [[2]; [3]] [[1; 0]; [2; 5]; [0; 0]]
    = None /\
  plot_fn 3 (fun v => v) (fun v => 1) [[2]; [3]] [[1; 0]; [2; 5]; [0; 0]]
    = None.
Proof.
  apply (bound_residual_batch_mismatch 3 (fun v => v) (fun v => 1)
           [[2]; [3]] [[1; 0]; [2; 5]; [0; 0]]); cbn; lia.
Defined.

Lemma column_pointwise_rows (f : Q -> Q -> Q) (a b : list (list Q)) :
  Forall (fun row : list Q => length row = 1%nat) a ->
  length a = length b ->
  Tensor.pointwise f a b
  = Some (zip_with (fun ar br => map (f (hd 0 ar)) br) a b).
Proof.
  intros Ha Hlen. unfold Tensor.pointwise.
  apply broadcast_rows; [exact Hlen |].
  intros i ar br Har _.
  pose proof (proj1 (Forall_lookup _ _) Ha i ar Har) as H1.
  destruct ar as [| ai [| ? ?]]; try discriminate H1.
  apply broadcast_singleton_l.
Qed.

Lemma sum_of_squares_nonneg (g : list Q) :
  0 <= foldr Qplus 0 (map (fun v => v ^ 2) g).
Proof.
  induction g as [| v g IH]; cbn [map foldr]; [lra |].
  assert (Hsq : v ^ 2 == v * v) by reflexivity.
  rewrite Hsq. nra.
Qed.

(** X13: for n values (one column), n positions with two coordinates and a
    gradient with n rows, [energy_residual] returns n rows with the single
    entry [0.5 * (|grad u_i|^2 - 4.25 pi^2 u_i sin(pi/2 x_i1) cos(2 pi x_i2))];
    the gradient part is a sum of squares, so the entry is never below
    minus half the source term. *)
Theorem energy_residual_rows
  (pi : Q) (sin cos : Q -> Q)
  (grad : list (list Q) -> list (list Q) -> list (list Q))
  (u x : list (list Q)) (n : nat) :
  length u = n -> length x = n -> length (grad u x) = n ->
  Forall (fun row : list Q => length row = 1%nat) u ->
  Forall (fun row : list Q => length row = 2%nat) x ->
  exists out,
    energy_residual pi sin cos grad u x = Some out /\
    length out = n /\
    forall (i : nat) (ui x1 x2 : Q) (gi : list Q),
      u !! i = Some [ui] -> x !! i = Some [x1; x2] ->
      grad u x !! i = Some gi ->
      let grad_term := foldr Qplus 0 (map (fun v => v ^ 2) gi) in
      let source := 4.25 * pi ^ 2 * ui * sin (pi / 2 * x1) * cos (2 * pi * x2) in
      out !! i = Some [0.5 * (grad_term - source)] /\
      0 <= grad_term /\
      - (0.5 * source) <= 0.5 * (grad_term - source).
Proof.
  intros Hu Hx Hg Hu1 Hx2.
  unfold energy_residual.
  set (S := Tensor.map_entries sin
              (Tensor.scale (pi / 2) (Tensor.columns_to 1 x))).
  set (C := Tensor.map_entries cos
              (Tensor.scale (2 * pi) (Tensor.columns_from 1 x))).
  set (G := Tensor.sum_dim1 (Tensor.map_entries (fun v => v ^ 2) (grad u x))).
  set (U := Tensor.scale (4.25 * pi ^ 2) u).
  assert (HS : length S = n)
    by (unfold S, Tensor.map_entries, Tensor.scale, Tensor.map_entries,
          Tensor.columns_to; rewrite !length_map; exact Hx).
  assert (HC : length C = n)
    by (unfold C, Tensor.map_entries, Tensor.scale, Tensor.map_entries,
          Tensor.columns_from; rewrite !length_map; exact Hx).
  assert (HG : length G = n)
    by (unfold G, Tensor.sum_dim1, Tensor.map_entries;
        rewrite !length_map; exact Hg).
  assert (HU : length U = n)
    by (unfold U, Tensor.scale, Tensor.map_entries; rewrite length_map; exact Hu).
  assert (HU1 : Forall (fun row : list Q => length row = 1%nat) U).
  { unfold U, Tensor.scale, Tensor.map_entries. apply Forall_forall.
    intros row Hin. apply list_elem_of_In, in_map_iff in Hin as (r0 & <- & Hin).
    rewrite length_map. apply list_elem_of_In in Hin.
    exact (proj1 (Forall_forall _ _) Hu1 r0 Hin). }
  assert (HS1 : Forall (fun row : list Q => length row = 1%nat) S).
  { unfold S, Tensor.map_entries, Tensor.scale, Tensor.map_entries,
      Tensor.columns_to. apply Forall_forall.
    intros row Hin. rewrite !List.map_map in Hin.
    apply list_elem_of_In, in_map_iff in Hin as (r0 & <- & Hin).
    rewrite !length_map. apply list_elem_of_In in Hin.
    pose proof (proj1 (Forall_forall _ _) Hx2 r0 Hin) as H2.
    destruct r0 as [| ? [| ? [| ? ?]]]; try discriminate H2. reflexivity. }
  rewrite (column_pointwise_rows Qmult U S HU1) by congruence.
  cbn [mbind option_bind].
  set (W := zip_with (fun ar br => map (Qmult (hd 0 ar)) br) U S).
  assert (HW : length W = n) by (unfold W; rewrite length_zip_with; lia).
  assert (HW1 : Forall (fun row : list Q => length row = 1%nat) W).
  { apply Forall_lookup. intros i row Hrow. unfold W in Hrow.
    apply lookup_zip_with_Some in Hrow as (ar & br & -> & _ & Hbr).
    rewrite length_map. exact (proj1 (Forall_lookup _ _) HS1 i br Hbr). }
  rewrite (column_pointwise_rows Qmult W C HW1) by congruence.
  cbn [mbind option_bind].
  set (V := zip_with (fun ar br => map (Qmult (hd 0 ar)) br) W C).
  assert (HV : length V = n) by (unfold V; rewrite length_zip_with; lia).
  assert (HG1 : Forall (fun row : list Q => length row = 1%nat) G).
  { unfold G, Tensor.sum_dim1. apply Forall_forall. intros row Hin.
    apply list_elem_of_In, in_map_iff in Hin as (r0 & <- & _). reflexivity. }
  rewrite (column_pointwise_rows Qminus G V HG1) by congruence.
  cbn [mbind option_bind].
  eexists. split; [reflexivity |].
  split.
  { unfold Tensor.scale, Tensor.map_entries.
    rewrite length_map, length_zip_with. lia. }
  intros i ui x1 x2 gi Hui Hxi Hgi.
  split.
  { unfold Tensor.scale, Tensor.map_entries.
    rewrite list_lookup_fmap, lookup_zip_with.
    unfold G, Tensor.sum_dim1, Tensor.map_entries.
    rewrite !list_lookup_fmap, Hgi.
    cbn [fmap option_fmap option_map mbind option_bind].
    unfold V. rewrite lookup_zip_with.
    unfold W. rewrite lookup_zip_with.
    unfold U, Tensor.scale, Tensor.map_entries. rewrite list_lookup_fmap, Hui.
    cbn [fmap option_fmap option_map mbind option_bind].
    unfold S, C, Tensor.map_entries, Tensor.scale, Tensor.map_entries,
      Tensor.columns_to, Tensor.columns_from.
    rewrite !list_lookup_fmap, Hxi.
    reflexivity. }
  split; [apply sum_of_squares_nonneg |].
  pose proof (sum_of_squares_nonneg gi) as Hnn. lra.
Qed.

Lemma energy_residual_rows_witness :
  exists out,
    energy_residual 3 (fun v => v) (fun v => 1) (fun u x => x)
      [[2]; [3]] [[1; 0]; [2; 5]] = Some out /\
    length out = 2%nat.
Proof.
  destruct (energy_residual_rows 3 (fun v => v) (fun v => 1) (fun u x => x)
              [[2]; [3]] [[1; 0]; [2; 5]] 2%nat)
    as (out & Hout & Hlen & _).
  - reflexivity.
  - reflexivity.
  - reflexivity.
  - repeat constructor.
  - repeat constructor.
  - exists out. split; assumption.
Defined.

(** * Properties of the evaluation grid *)

Lemma length_flat_map_uniform {A B} (g : A -> list B) (n : nat) (l : list A) :
  (forall a, length (g a) = n) -> length (flat_map g l) = (length l * n)%nat.
Proof.
  intros Hg. induction l as [| a l IH]; [reflexivity |].
  cbn [flat_map]. rewrite length_app, Hg, IH. cbn. lia.
Qed.

Lemma lookup_flat_map_uniform {A B} (g : A -> list B) (n : nat)
  (l : list A) (i j : nat) (a : A) :
  (forall a, length (g a) = n) ->
  l !! i = Some a -> (j < n)%nat ->
  flat_map g l !! (i * n + j)%nat = g a !! j.
Proof.
  intros Hg. revert i. induction l as [| a0 l IH]; intros i Hi Hj;
    [discriminate Hi |].
  cbn [flat_map]. destruct i as [| i].
  - injection Hi as ->. cbn. apply lookup_app_l. rewrite Hg. exact Hj.
  - cbn in Hi. rewrite lookup_app_r by (rewrite Hg; lia).
    rewrite Hg. replace (S i * n + j - n)%nat with (i * n + j)%nat by lia.
    apply IH; assumption.
Qed.

Section GridCells.

Variables x y t : list Q.

Let F := fun (p : Q * Q) (z : Q) => [fst p; snd p; z].

Lemma stack_along_t (xi yj : Q) :
  zip_with F (zip (map (fun _ => xi) t) (map (fun _ => yj) t)) t
  = map (fun tk => [xi; yj; tk]) t.
Proof.
  induction t as [| tk t' IH]; [reflexivity |].
  cbn. f_equal. exact IH.
Qed.

Lemma stack_along_y (xi : Q) :
  zip_with F
    (zip (concat (map (fun _ : Q => map (fun _ : Q => xi) t) y))
         (concat (map (fun yj : Q => map (fun _ : Q => yj) t) y)))
    (concat (map (fun _ : Q => t) y))
  = flat_map (fun yj => map (fun tk => [xi; yj; tk]) t) y.
Proof.
  induction y as [| yj y' IH]; [reflexivity |].
  cbn [map concat flat_map].
  rewrite zip_with_app by (rewrite !length_map; reflexivity).
  rewrite zip_with_app
    by (rewrite length_zip_with, !length_map; lia).
  f_equal; [apply stack_along_t | exact IH].
Qed.

Lemma length_block (g : Q -> list Q) :
  (forall a, length (g a) = length t) ->
  length (concat (map g y)) = (length y * length t)%nat.
Proof.
  intros Hg. rewrite <- flat_map_concat_map.
  apply length_flat_map_uniform, Hg.
Qed.

Lemma tensors_cells : Grid.tensors x y t = Some (grid_cells x y t).
Proof.
  unfold Grid.tensors, Grid.meshgrid, Grid.stack, Grid.flatten.
  assert (Hcells :
    zip_with F
      (zip (concat (concat (map (fun xi => map (fun _ => map (fun _ => xi) t) y) x)))
           (concat (concat (map (fun _ => map (fun yj => map (fun _ => yj) t) y) x))))
      (concat (concat (map (fun _ => map (fun _ => t) y) x)))
    = grid_cells x y t /\
    length (concat (concat (map (fun xi => map (fun _ => map (fun _ => xi) t) y) x)))
    = (length x * (length y * length t))%nat /\
    length (concat (concat (map (fun _ => map (fun yj => map (fun _ => yj) t) y) x)))
    = (length x * (length y * length t))%nat /\
    length (concat (concat (map (fun _ => map (fun _ => t) y) x)))
    = (length x * (length y * length t))%nat).
  { unfold grid_cells. induction x as [| xi x' IH]; [repeat split |].
    destruct IH as (IHc & IH1 & IH2 & IH3).
    cbn [map concat flat_map]. rewrite !concat_app, !length_app.
    rewrite IH1, IH2, IH3.
    rewrite !length_block by (intros; rewrite ?length_map; reflexivity).
    split; [| cbn; repeat split; lia].

    rewrite zip_with_app
      by (rewrite !length_block by (intros; rewrite ?length_map; reflexivity);
          reflexivity).
    rewrite zip_with_app
      by (rewrite length_zip_with,
            !length_block by (intros; rewrite ?length_map; reflexivity);
          lia).
    f_equal; [apply stack_along_y | exact IHc]. }
  destruct Hcells as (Hc & H1 & H2 & H3).
  rewrite H1, H2, H3, !Nat.eqb_refl. cbn [andb]. f_equal. exact Hc.
Qed.

Lemma length_grid_cells :
  length (grid_cells x y t) = (length x * length y * length t)%nat.
Proof.
  unfold grid_cells.
  rewrite (length_flat_map_uniform _ (length y * length t)).
  - lia.
  - intros xi. rewrite (length_flat_map_uniform _ (length t)); [reflexivity |].
    intros yj. apply length_map.
Qed.

Lemma lookup_grid_cells (i j k : nat) (xi yj tk : Q) :
  x !! i = Some xi -> y !! j = Some yj -> t !! k = Some tk ->
  grid_cells x y t !! ((i * length y + j) * length t + k)%nat
  = Some [xi; yj; tk].
Proof.
  intros Hi Hj Hk.
  pose proof (lookup_lt_Some _ _ _ Hj) as Hjlt.
  pose proof (lookup_lt_Some _ _ _ Hk) as Hklt.
  unfold grid_cells.
  replace ((i * length y + j) * length t + k)%nat
    with (i * (length y * length t) + (j * length t + k))%nat by lia.
  rewrite (lookup_flat_map_uniform _ (length y * length t) x i _ xi);
    [| | exact Hi | nia].
  - rewrite (lookup_flat_map_uniform _ (length t) y j k yj);
      [| intros; apply length_map | exact Hj | exact Hklt].
    rewrite list_lookup_fmap, Hk. reflexivity.
  - intros a. apply length_flat_map_uniform. intros b. apply length_map.
Qed.

End GridCells.

(** X14: the stacked grid never raises and enumerates the Cartesian product
    of the three coordinate vectors in row-major order: it has
    |x| * |y| * |t| rows, and row (i * |y| + j) * |t| + k is
    [x_i; y_j; t_k], the position before the time, as the space X*T
    expects. *)
Theorem tensors_enumerate_the_grid (x y t : list Q) :
  exists points,
    Grid.tensors x y t = Some points /\
    length points = (length x * length y * length t)%nat /\
    Forall (fun row : list Q => length row = 3%nat) points /\
    forall (i j k : nat) (xi yj tk : Q),
      x !! i = Some xi -> y !! j = Some yj -> t !! k = Some tk ->
      points !! ((i * length y + j) * length t + k)%nat = Some [xi; yj; tk].
Proof.
  exists (grid_cells x y t).
  split; [apply tensors_cells |].
  split; [apply length_grid_cells |].
  split; [| apply lookup_grid_cells].
  unfold grid_cells. apply Forall_forall. intros row Hin.
  apply list_elem_of_In, in_flat_map in Hin as (xi & _ & Hin).
  apply in_flat_map in Hin as (yj & _ & Hin).
  apply in_map_iff in Hin as (tk & <- & _). reflexivity.
Qed.

Lemma tensors_enumerate_the_grid_witness :
  exists points,
    Grid.tensors [0; 5] [0; 2; 4] [6] = Some points /\
    points !! 5%nat = Some [5; 4; 6].
Proof.
  destruct (tensors_enumerate_the_grid [0; 5] [0; 2; 4] [6])
    as (points & Hp & _ & _ & Hrows).
  exists points. split; [exact Hp |].
  exact (Hrows 1%nat 2%nat 0%nat 5 4 6 eq_refl eq_refl eq_refl).
Defined.

Lemma concat_singletons {A} (f : A -> Q) (l : list A) :
  concat (map (fun p => [f p]) l) = map f l.
Proof.
  induction l as [| p l IH]; [reflexivity |]. cbn. rewrite IH. reflexivity.
Qed.

Lemma reshape_lookup (n1 n2 n3 : nat) (a : list (list Q))
  (out : list (list (list Q))) (i j : nat) :
  Grid.reshape n1 n2 n3 a = Some out -> (i < n1)%nat -> (j < n2)%nat ->
  exists block,
    out !! i = Some block /\ length block = n2 /\
    block !! j = Some (take n3 (drop ((i * n2 + j) * n3) (concat a))).
Proof.
  unfold Grid.reshape. intros H Hi Hj.
  destruct (Nat.eqb _ _); [| discriminate H]. injection H as <-.
  eexists. split.
  - rewrite list_lookup_fmap, lookup_seq_lt by exact Hi. reflexivity.
  - split; [rewrite length_map, length_seq; reflexivity |].
    rewrite list_lookup_fmap, lookup_seq_lt by exact Hj. reflexivity.
Qed.

(** X15: reshaping the output of a model that maps every grid point to one
    number: [reshape(n1, n2, n3)] is defined exactly when n1 * n2 * n3 is
    the number of grid points, and with the sizes of the three coordinate
    vectors entry [i][j][k] is the model at [x_i; y_j; t_k]. *)
Theorem reshape_of_the_grid_output
  (model : list (list Q) -> list (list Q)) (f : list Q -> Q)
  (x y t : list Q) (points : list (list Q)) (n1 n2 n3 : nat) :
  (forall rows, model rows = map (fun p => [f p]) rows) ->
  Grid.tensors x y t = Some points ->
  (is_Some (Grid.reshape n1 n2 n3 (model points)) <->
     (n1 * n2 * n3 = length x * length y * length t)%nat) /\
  forall out (i j k : nat) (xi yj tk : Q),
    Grid.reshape (length x) (length y) (length t) (model points) = Some out ->
    x !! i = Some xi -> y !! j = Some yj -> t !! k = Some tk ->
    exists block row,
      out !! i = Some block /\ block !! j = Some row /\
      row !! k = Some (f [xi; yj; tk]).
Proof.
  intros Hmodel Hpoints.
  rewrite tensors_cells in Hpoints. injection Hpoints as <-.
  assert (Hflat : concat (model (grid_cells x y t)) = map f (grid_cells x y t))
    by (rewrite Hmodel; apply concat_singletons).
  split.
  - unfold Grid.reshape. rewrite Hflat, length_map, length_grid_cells.
    destruct (Nat.eqb_spec (length x * length y * length t) (n1 * n2 * n3))
      as [E | E]; split; intros H.
    + lia.
    + eexists. reflexivity.
    + destruct H as [? H]. discriminate H.
    + lia.
  - intros out i j k xi yj tk Hout Hi Hj Hk.
    pose proof (lookup_lt_Some _ _ _ Hi) as Hilt.
    pose proof (lookup_lt_Some _ _ _ Hj) as Hjlt.
    pose proof (lookup_lt_Some _ _ _ Hk) as Hklt.
    destruct (reshape_lookup _ _ _ _ out i j Hout Hilt Hjlt)
      as (block & Hblock & _ & Hrow).
    exists block. eexists. split; [exact Hblock |]. split; [exact Hrow |].
    rewrite lookup_take_lt by exact Hklt.
    rewrite lookup_drop, Hflat, list_lookup_fmap.
    rewrite (lookup_grid_cells x y t i j k xi yj tk Hi Hj Hk). reflexivity.
Qed.

Lemma reshape_of_the_grid_output_witness :
  is_Some (Grid.reshape 2 3 1
             (map (fun p => [foldr Qplus 0 p]) (grid_cells [0; 5] [0; 2; 4] [6])))
  <-> (2 * 3 * 1 = 2 * 3 * 1)%nat.
Proof.
  destruct (reshape_of_the_grid_output
              (map (fun p => [foldr Qplus 0 p])) (foldr Qplus 0)
              [0; 5] [0; 2; 4] [6] (grid_cells [0; 5] [0; 2; 4] [6]) 2 3 1)
    as [H _].
  - intros rows. reflexivity.
  - reflexivity.
  - exact H.
Defined.

Lemma omap_lookup_all {A B} (g : A -> option B) (m : list A) (c : nat) :
  Forall (fun a => is_Some (g a)) m ->
  omap g m !! c = (m !! c) ≫= g.
Proof.
  intros Hall. revert c. induction Hall as [| a m [v Hv] _ IH]; intros c;
    [reflexivity |].
  cbn [omap list_omap]. rewrite Hv. destruct c as [| c]; cbn.
  - symmetry. exact Hv.
  - apply IH.
Qed.

Lemma rot90_lookup {A} (m : list (list A)) (b r c : nat)
  (row : list A) (v : A) :
  Forall (fun rw : list A => length rw = b) m -> (r < b)%nat ->
  m !! c = Some row -> row !! (b - S r)%nat = Some v ->
  exists line, Grid.rot90 m !! r = Some line /\ line !! c = Some v.
Proof.
  intros Hrect Hr Hc Hv.
  assert (Hrev : Forall (fun rw : list A => is_Some (rw !! r)) (map reverse m)).
  { apply Forall_forall. intros rw Hin.
    apply list_elem_of_In, in_map_iff in Hin as (rw0 & <- & Hin).
    apply lookup_lt_is_Some_2. rewrite length_reverse.
    apply list_elem_of_In in Hin.
    rewrite (proj1 (Forall_forall _ _) Hrect rw0 Hin). exact Hr. }
  unfold Grid.rot90, Grid.transpose.
  destruct m as [| row0 m']; [discriminate Hc |].
  assert (Hb : length (reverse row0) = b).
  { rewrite length_reverse.
    apply (proj1 (Forall_forall _ _) Hrect row0). apply list_elem_of_here. }
  cbn [map] in Hrev |- *. rewrite Hb.
  change (reverse row0 :: map reverse m') with (map reverse (row0 :: m'))
    in Hrev |- *.
  remember (row0 :: m') as M eqn:EM. clear EM.
  eexists. split.
  - rewrite list_lookup_fmap, lookup_seq_lt by exact Hr. reflexivity.
  - change (0 + r)%nat with r. rewrite (omap_lookup_all (fun r0 : list A => r0 !! r) _ c Hrev).
    rewrite list_lookup_fmap, Hc. cbn [fmap option_fmap option_map mbind option_bind].
    rewrite reverse_lookup
      by (rewrite (proj1 (Forall_lookup _ _) Hrect c row Hc); exact Hr).
    rewrite (proj1 (Forall_lookup _ _) Hrect c row Hc). exact Hv.
Qed.

Lemma take_one_drop (l : list Q) (n : nat) (v : Q) :
  l !! n = Some v -> take 1 (drop n l) = [v].
Proof.
  revert n. induction l as [| a l IH]; intros [| n] H; try discriminate H.
  - injection H as ->. reflexivity.
  - cbn. apply IH. exact H.
Qed.

(** X16: the picture of the last cell has the orientation of the room: for
    a model that maps every grid point to one number and a single time
    [t0], the rotated image has one line per y coordinate with the largest
    y first, and in line r the entry of column c is the model at
    [x_c; y_(|y| - 1 - r); t0]. *)
Theorem image_has_the_orientation_of_the_room
  (model : list (list Q) -> list (list Q)) (f : list Q -> Q)
  (x y : list Q) (t0 : Q) :
  (forall rows, model rows = map (fun p => [f p]) rows) ->
  exists img,
    Grid.image model x y [t0] (length x) (length y) 1 = Some img /\
    forall (r c : nat) (xc yr : Q),
      (r < length y)%nat ->
      x !! c = Some xc -> y !! (length y - 1 - r)%nat = Some yr ->
      exists line, img !! r = Some line /\ line !! c = Some [f [xc; yr; t0]].
Proof.
  intros Hmodel. unfold Grid.image.
  rewrite tensors_cells. cbn [mbind option_bind].
  assert (Hflat : concat (model (grid_cells x y [t0]))
                  = map f (grid_cells x y [t0]))
    by (rewrite Hmodel; apply concat_singletons).
  destruct (Grid.reshape (length x) (length y) 1 (model (grid_cells x y [t0])))
    as [out |] eqn:Eout.
  2:{ exfalso. unfold Grid.reshape in Eout.
      rewrite Hflat, length_map, length_grid_cells in Eout.
      cbn [length] in Eout. rewrite Nat.eqb_refl in Eout. discriminate Eout. }
  cbn [mbind option_bind]. eexists. split; [reflexivity |].
  intros r c xc yr Hr Hc Hy.
  pose proof (lookup_lt_Some _ _ _ Hc) as Hclt.
  assert (Hjlt : (length y - 1 - r < length y)%nat) by lia.
  destruct (reshape_lookup _ _ _ _ out c (length y - 1 - r) Eout Hclt Hjlt)
    as (block & Hblock & Hlen & Hrow).
  apply (rot90_lookup out (length y) r c block); try assumption.
  - apply Forall_lookup. intros i blk Hblk.
    assert (Hi : (i < length x)%nat).
    { apply lookup_lt_Some in Hblk. unfold Grid.reshape in Eout.
      destruct (Nat.eqb _ _); [| discriminate Eout]. injection Eout as <-.
      rewrite length_map, length_seq in Hblk. exact Hblk. }
    destruct y as [| y0 y'] eqn:Ey; [cbn in Hr; lia |].
    destruct (reshape_lookup _ _ _ _ out i 0%nat Eout Hi)
      as (blk' & Hblk' & Hlen' & _); [cbn; lia |].
    congruence.
  - replace (length y - S r)%nat with (length y - 1 - r)%nat by lia.
    rewrite Hrow. f_equal. apply take_one_drop.
    rewrite Hflat, list_lookup_fmap.
    pose proof (lookup_grid_cells x y [t0] c (length y - 1 - r) 0 xc yr t0
                  Hc Hy eq_refl) as Hcell.
    cbn [length] in Hcell. rewrite Nat.add_0_r in Hcell.
    rewrite Hcell. reflexivity.
Qed.

Lemma image_has_the_orientation_of_the_room_witness :
  exists img,
    Grid.image (map (fun p => [foldr Qplus 0 p])) [0; 5] [0; 2; 4] [6] 2 3 1
      = Some img /\
    forall (r c : nat) (xc yr : Q),
      (r < 3)%nat ->
      [0; 5] !! c = Some xc -> [0; 2; 4] !! (3 - 1 - r)%nat = Some yr ->
      exists line, img !! r = Some line /\
                   line !! c = Some [foldr Qplus 0 [xc; yr; 6]].
Proof.
  apply (image_has_the_orientation_of_the_room
           (map (fun p => [foldr Qplus 0 p])) (foldr Qplus 0) [0; 5] [0; 2; 4] 6).
  intros rows. reflexivity.
Defined.

(** * Further properties of the packaging workflow *)

(** X17: the publishing job fetches exactly the artifacts that the jobs it
    needs store: after the expansion of the matrix, the names of its
    download steps are the names of the upload steps of [build_wheels] and
    [build_sdist], and no name is stored twice. *)
Theorem downloads_match_uploads
  (pypi_secret : string) (store : string -> string) (ev : Workflow.Event) :
  let wf := Workflow.packaging pypi_secret in
  let stored :=
    flat_map (artifact_names "actions/upload-artifact@v4" wf ev store)
      [Workflow.build_wheels; Workflow.build_sdist] in
  let fetched :=
    artifact_names "actions/download-artifact@v4" wf ev store
      (Workflow.upload_pypi pypi_secret) in
  Workflow.needs (Workflow.upload_pypi pypi_secret)
    = [Workflow.job_id Workflow.build_wheels;
       Workflow.job_id Workflow.build_sdist] /\
  NoDup stored /\ NoDup fetched /\
  forall n, n ∈ fetched <-> n ∈ stored.
Proof.
  intros wf stored fetched.
  assert (Hs : stored = ["artifact-wheel-ubuntu-latest"; "artifact-sdist"])
    by (destruct ev; reflexivity).
  assert (Hf : fetched = ["artifact-sdist"; "artifact-wheel-ubuntu-latest"])
    by (destruct ev; reflexivity).
  rewrite Hs, Hf. split; [reflexivity |].
  split.
  { apply NoDup_cons_2; [| apply NoDup_singleton].
    intros H. apply list_elem_of_singleton in H. discriminate H. }
  split.
  { apply NoDup_cons_2; [| apply NoDup_singleton].
    intros H. apply list_elem_of_singleton in H. discriminate H. }
  intros n. rewrite !elem_of_cons, !elem_of_nil. tauto.
Qed.

Section BuildOrder.

Import Workflow.

Variable pypi_secret : string.
Variable store : string -> string.

Lemma run_jobs_sdist_first ev :
  run_jobs (packaging_sdist_first pypi_secret) ev store =
    let built := {|
      artifacts :=
        [("artifact-sdist", [{| dir := "dist"; product := Sdist |}]);
         ("artifact-wheel-ubuntu-latest",
          [{| dir := "dist"; product := Wheel "3.10" |}])];
      published := [];
      statuses := [("build_sdist", success); ("build_wheels", success)];
      workspaces :=
        [("build_sdist", [{| dir := "dist"; product := Sdist |}]);
         ("build_wheels", [{| dir := "dist"; product := Wheel "3.10" |}])] |} in
    if is_published_release ev
    then record_job "upload_pypi" success
           (packages (pypi_publication (store pypi_secret)))
           (set_published [pypi_publication (store pypi_secret)] built)
    else record_job "upload_pypi" skipped [] built.
Proof.
  cbv zeta. unfold run_jobs.
  change (jobs (packaging_sdist_first pypi_secret))
    with ([build_sdist; build_wheels] ++ [upload_pypi pypi_secret]).
  rewrite foldl_app.
  match goal with
  | |- foldl ?f (foldl ?f ?i ?l) _ = _ =>
      let st := eval vm_compute in (foldl f i l) in
      change (foldl f i l) with st
  end.
  cbn [foldl]. destruct ev as [n a].
  unfold is_published_release. cbn [event_name event_action].
  unfold exec_job, should_run.
  change (forallb _ _) with true.
  cbn [andb job_if upload_pypi eval_cond eval_term event event_name event_action].
  change (lower "release") with "release".
  change (lower "published") with "published".
  destruct (String.eqb (lower n) "release" && String.eqb (lower a) "published");
    vm_compute; reflexivity.
Qed.

End BuildOrder.

(** X18: the order in which the two build jobs finish does not matter: with
    [build_sdist] run before [build_wheels] the run publishes the same,
    gives every job the same status and working directory, and stores the
    same artifacts. *)
Theorem build_order_does_not_matter
  (pypi_secret : string) (store : string -> string) (ev : Workflow.Event) :
  let first := Workflow.run_jobs (Workflow.packaging pypi_secret) ev store in
  let second := Workflow.run_jobs (packaging_sdist_first pypi_secret) ev store in
  Workflow.published second = Workflow.published first /\
  (forall id, Workflow.status_of second id = Workflow.status_of first id) /\
  (forall id, Workflow.workspace_of second id = Workflow.workspace_of first id) /\
  (forall n, Workflow.lookup_key n (Workflow.artifacts second)
             = Workflow.lookup_key n (Workflow.artifacts first)).
Proof.
  intros first second. unfold first, second.
  rewrite run_jobs_sdist_first, run_jobs_cases. cbv zeta.
  destruct (Workflow.is_published_release ev);
    (split; [reflexivity |]);
    (split; [intros id | split; intros id]);
    unfold Workflow.status_of, Workflow.workspace_of, Workflow.lookup_key;
    cbn [Workflow.record_job Workflow.set_published Workflow.statuses
         Workflow.workspaces Workflow.artifacts Workflow.built_state
         app List.find fst snd];
    repeat (match goal with
            | |- context [String.eqb ?a ?b] =>
                destruct (String.eqb_spec a b) as [<- | ?]
            end; try reflexivity).
Qed.
